(** * The execution core of the simulator: [riscv/processor.cc]

    A shallow embedding of [processor_t]: the two-level instruction
    dispatch table, the status register, trap delivery, the step loop with
    its timer, and the vector-lane configuration.

    Machine integers are [Z] with the wrap-around of their C++ type written
    out.  Constants, macros and types that live in headers outside
    [processor.cc] are fields of the class [Config]. *)

From Stdlib Require Import ZArith Bool Lia.
From stdpp Require Import base option list vector strings.

Local Open Scope Z_scope.

(** ** Machine integers *)

(** An unsigned integer of [w] bits. *)
Definition wrap (w x : Z) : Z := x mod 2 ^ w.

(** [uint32_t]: the status registers and the instruction word. *)
Definition wrap32 (x : Z) : Z := wrap 32 x.

(** [reg_t] (the constructor asserts [sizeof(reg_t) == 8]) and [size_t] on
    the 64-bit hosts the simulator is built for. *)
Definition wrap64 (x : Z) : Z := wrap 64 x.

(** [int]: the value of a 32-bit two's complement word. *)
Definition wrap_int (x : Z) : Z := (x + 2 ^ 31) mod 2 ^ 32 - 2 ^ 31.

Definition INT_MIN : Z := - 2 ^ 31.
Definition INT_MAX : Z := 2 ^ 31 - 1.
Definition in_int (x : Z) : Prop := INT_MIN <= x <= INT_MAX.

(** A C++ condition: an integer is true when it is not zero. *)
Definition truthy (x : Z) : bool := negb (x =? 0).

(** ** Build configuration

    Everything [processor.cc] takes from its headers ([processor.h],
    [decode.h], [trap.h], [config.h]): the bit masks of the status, cause and
    floating-point status registers, the trap numbering, the table and lane
    array sizes, the width of [typeof(count)], and the [RISCV_ENABLE_*]
    switches that [set_sr] tests with [#ifndef]. *)

Class Config := {
  DISPATCH_TABLE_SIZE : Z;
  SR_ET : Z; SR_EF : Z; SR_EV : Z; SR_EC : Z; SR_PS : Z; SR_S : Z;
  SR_UX : Z; SR_SX : Z; SR_IM : Z; SR_VM : Z; SR_ZERO : Z;
  SR_IM_SHIFT : Z;
  FSR_ZERO : Z;
  CAUSE_EXCCODE : Z; CAUSE_EXCCODE_SHIFT : Z;
  CAUSE_IP : Z; CAUSE_IP_SHIFT : Z;
  TIMER_IRQ : Z; IPI_IRQ : Z;
  NUM_TRAPS : Z;
  trap_interrupt : Z;
  trap_illegal_instruction : Z;
  MAX_UTS : Z;
  count_bits : Z;
  RISCV_ENABLE_64BIT : bool;
  RISCV_ENABLE_FPU : bool;
  RISCV_ENABLE_RVC : bool;
  RISCV_ENABLE_VEC : bool
}.

(** ** The dispatch table *)

(** One line [DECLARE_INSN(name, opcode, mask)] of [opcodes.h]. *)
Definition opcode_entry : Type := string * Z * Z.

(** [insn_chain_t]; [func] is always [&processor_t::insn_func_<name>], kept
    as the name. *)
Record insn_chain_t := mk_chain { func : string; opcode : Z; mask : Z }.

(** [insn_func_t]: what a slot of [dispatch_table] can point to. *)
Inductive insn_func_t :=
| insn_func_ (name : string)
| processor_dispatch.

(** The two static arrays; [None] is the [NULL] of a zero-initialised slot. *)
Record dispatch_state := mk_dispatch {
  dispatch_table : list (option insn_func_t);
  dispatch_chain : list (list insn_chain_t)
}.

(** What executing a slot does first: it runs a handler, or [dispatch]
    throws [trap_illegal_instruction]. *)
Inductive selection :=
| Selected (name : string)
| IllegalInstruction.

Section Dispatch.
Context {cfg : Config}.

Definition table_len : nat := Z.to_nat DISPATCH_TABLE_SIZE.

Definition static_dispatch : dispatch_state :=
  mk_dispatch (replicate table_len None) (replicate table_len []).

(** The body of the macro [DECLARE_INSN] inside the first loop. *)
Definition DECLARE_INSN (i : nat) (chain_i : list insn_chain_t)
    (e : opcode_entry) : list insn_chain_t :=
  let '(name, opc, msk) := e in
  if Z.land (Z.of_nat i) msk
     =? Z.land (Z.land opc msk) (DISPATCH_TABLE_SIZE - 1)
  then chain_i ++ [mk_chain name opc msk]
  else chain_i.

(** [#include "opcodes.h"] at slot [i]: every line in its order. *)
Definition include_opcodes (opcodes : list opcode_entry) (i : nat)
    (chain_i : list insn_chain_t) : list insn_chain_t :=
  fold_left (DECLARE_INSN i) opcodes chain_i.

(** The body of the second loop. *)
Definition bind_slot (chain_i : list insn_chain_t) : option insn_func_t :=
  if (length chain_i =? 1)%nat
  then match chain_i with
       | c :: _ => Some (insn_func_ (func c))
       | [] => None
       end
  else Some processor_dispatch.

Definition initialize_dispatch_table (opcodes : list opcode_entry)
    (ds : dispatch_state) : dispatch_state :=
  match dispatch_table ds !! 0%nat with
  | Some (Some _) => ds
  | _ =>
    let chain := imap (include_opcodes opcodes) (dispatch_chain ds) in
    mk_dispatch (bind_slot <$> chain) chain
  end.

(** [insn.bits % DISPATCH_TABLE_SIZE] *)
Definition slot_of (bits : Z) : nat := Z.to_nat (bits mod DISPATCH_TABLE_SIZE).

(** The loop of [processor_t::dispatch] over one chain. *)
Fixpoint scan_chain (bits : Z) (chain : list insn_chain_t) : selection :=
  match chain with
  | [] => IllegalInstruction
  | c :: rest =>
    if Z.land bits (mask c) =? opcode c then Selected (func c)
    else scan_chain bits rest
  end.

Definition dispatch_select (ds : dispatch_state) (bits : Z) : selection :=
  scan_chain bits (default [] (dispatch_chain ds !! slot_of bits)).

(** [dispatch_table[insn.bits % DISPATCH_TABLE_SIZE](this, insn, pc)] up to
    the handler that runs; [None] is a call through a null slot. *)
Definition table_select (ds : dispatch_state) (bits : Z) : option selection :=
  match dispatch_table ds !! slot_of bits with
  | Some (Some (insn_func_ name)) => Some (Selected name)
  | Some (Some processor_dispatch) => Some (dispatch_select ds bits)
  | _ => None
  end.

(** The reference the table is compared with: the first line of
    [opcodes.h], in its order, whose full pattern the word matches. *)
Fixpoint linear_scan (opcodes : list opcode_entry) (bits : Z) : selection :=
  match opcodes with
  | [] => IllegalInstruction
  | (name, opc, msk) :: rest =>
    if Z.land bits msk =? opc then Selected name
    else linear_scan rest bits
  end.

(** The candidates of a slot. *)
Definition candidates (opcodes : list opcode_entry) (bits : Z)
    : list insn_chain_t :=
  default [] (dispatch_chain (initialize_dispatch_table opcodes static_dispatch)
                !! slot_of bits).

End Dispatch.

(** ** Processor state *)

(** Modelled from the spec: the sizes of the register files ([NXPR] and
    [NFPR] of [decode.h]); "32 general-purpose registers" and "32 registers"
    of floating point. *)
Definition NXPR : nat := 32.
Definition NFPR : nat := 32.

(** What [processor.cc] sees of the memory subsystem [mmu_t]: the two mode
    bits it sets, the translation-cache flushes it asks for, and the address
    of the last memory fault. *)
Record mmu_t := mk_mmu {
  vm_enabled : bool;
  supervisor : bool;
  tlb_flushes : nat;
  mmu_badvaddr : Z
}.

(** A line written to the standard output by [printf]. *)
Inductive trace_line :=
| trace_insn (core pc_ bits : Z)
| trace_trap (core t pc_ : Z).

Record processor_t := mk_processor {
  id : Z;
  run : bool;
  XPR : vec Z NXPR;
  FPR : vec Z NFPR;
  pc : Z;
  evec : Z;
  epc : Z;
  badvaddr : Z;
  cause : Z;
  pcr_k0 : Z;
  pcr_k1 : Z;
  tohost : Z;
  fromhost : Z;
  count : Z;
  compare : Z;
  cycle : Z;
  sr : Z;
  fsr : Z;
  xprlen : Z;
  vecbanks : Z;
  vecbanks_count : Z;
  utidx : Z;
  vlmax : Z;
  vl : Z;
  nxfpr_bank : Z;
  nxpr_use : Z;
  nfpr_use : Z;
  uts : list (option nat);
  mmu : mmu_t;
  stdout : list trace_line
}.

Definition with_id (v : Z) (p : processor_t) : processor_t :=
  mk_processor v (run p) (XPR p) (FPR p) (pc p) (evec p) (epc p) (badvaddr
    p) (cause p) (pcr_k0 p) (pcr_k1 p) (tohost p) (fromhost p) (count p)
    (compare p) (cycle p) (sr p) (fsr p) (xprlen p) (vecbanks p)
    (vecbanks_count p) (utidx p) (vlmax p) (vl p) (nxfpr_bank p) (nxpr_use
    p) (nfpr_use p) (uts p) (mmu p) (stdout p).

Definition with_run (v : bool) (p : processor_t) : processor_t :=
  mk_processor (id p) v (XPR p) (FPR p) (pc p) (evec p) (epc p) (badvaddr p)
    (cause p) (pcr_k0 p) (pcr_k1 p) (tohost p) (fromhost p) (count p)
    (compare p) (cycle p) (sr p) (fsr p) (xprlen p) (vecbanks p)
    (vecbanks_count p) (utidx p) (vlmax p) (vl p) (nxfpr_bank p) (nxpr_use
    p) (nfpr_use p) (uts p) (mmu p) (stdout p).

Definition with_XPR (v : vec Z NXPR) (p : processor_t) : processor_t :=
  mk_processor (id p) (run p) v (FPR p) (pc p) (evec p) (epc p) (badvaddr p)
    (cause p) (pcr_k0 p) (pcr_k1 p) (tohost p) (fromhost p) (count p)
    (compare p) (cycle p) (sr p) (fsr p) (xprlen p) (vecbanks p)
    (vecbanks_count p) (utidx p) (vlmax p) (vl p) (nxfpr_bank p) (nxpr_use
    p) (nfpr_use p) (uts p) (mmu p) (stdout p).

Definition with_pc (v : Z) (p : processor_t) : processor_t :=
  mk_processor (id p) (run p) (XPR p) (FPR p) v (evec p) (epc p) (badvaddr
    p) (cause p) (pcr_k0 p) (pcr_k1 p) (tohost p) (fromhost p) (count p)
    (compare p) (cycle p) (sr p) (fsr p) (xprlen p) (vecbanks p)
    (vecbanks_count p) (utidx p) (vlmax p) (vl p) (nxfpr_bank p) (nxpr_use
    p) (nfpr_use p) (uts p) (mmu p) (stdout p).

Definition with_evec (v : Z) (p : processor_t) : processor_t :=
  mk_processor (id p) (run p) (XPR p) (FPR p) (pc p) v (epc p) (badvaddr p)
    (cause p) (pcr_k0 p) (pcr_k1 p) (tohost p) (fromhost p) (count p)
    (compare p) (cycle p) (sr p) (fsr p) (xprlen p) (vecbanks p)
    (vecbanks_count p) (utidx p) (vlmax p) (vl p) (nxfpr_bank p) (nxpr_use
    p) (nfpr_use p) (uts p) (mmu p) (stdout p).

Definition with_epc (v : Z) (p : processor_t) : processor_t :=
  mk_processor (id p) (run p) (XPR p) (FPR p) (pc p) (evec p) v (badvaddr p)
    (cause p) (pcr_k0 p) (pcr_k1 p) (tohost p) (fromhost p) (count p)
    (compare p) (cycle p) (sr p) (fsr p) (xprlen p) (vecbanks p)
    (vecbanks_count p) (utidx p) (vlmax p) (vl p) (nxfpr_bank p) (nxpr_use
    p) (nfpr_use p) (uts p) (mmu p) (stdout p).

Definition with_badvaddr (v : Z) (p : processor_t) : processor_t :=
  mk_processor (id p) (run p) (XPR p) (FPR p) (pc p) (evec p) (epc p) v
    (cause p) (pcr_k0 p) (pcr_k1 p) (tohost p) (fromhost p) (count p)
    (compare p) (cycle p) (sr p) (fsr p) (xprlen p) (vecbanks p)
    (vecbanks_count p) (utidx p) (vlmax p) (vl p) (nxfpr_bank p) (nxpr_use
    p) (nfpr_use p) (uts p) (mmu p) (stdout p).

Definition with_cause (v : Z) (p : processor_t) : processor_t :=
  mk_processor (id p) (run p) (XPR p) (FPR p) (pc p) (evec p) (epc p)
    (badvaddr p) v (pcr_k0 p) (pcr_k1 p) (tohost p) (fromhost p) (count p)
    (compare p) (cycle p) (sr p) (fsr p) (xprlen p) (vecbanks p)
    (vecbanks_count p) (utidx p) (vlmax p) (vl p) (nxfpr_bank p) (nxpr_use
    p) (nfpr_use p) (uts p) (mmu p) (stdout p).

Definition with_count (v : Z) (p : processor_t) : processor_t :=
  mk_processor (id p) (run p) (XPR p) (FPR p) (pc p) (evec p) (epc p)
    (badvaddr p) (cause p) (pcr_k0 p) (pcr_k1 p) (tohost p) (fromhost p) v
    (compare p) (cycle p) (sr p) (fsr p) (xprlen p) (vecbanks p)
    (vecbanks_count p) (utidx p) (vlmax p) (vl p) (nxfpr_bank p) (nxpr_use
    p) (nfpr_use p) (uts p) (mmu p) (stdout p).

Definition with_compare (v : Z) (p : processor_t) : processor_t :=
  mk_processor (id p) (run p) (XPR p) (FPR p) (pc p) (evec p) (epc p)
    (badvaddr p) (cause p) (pcr_k0 p) (pcr_k1 p) (tohost p) (fromhost p)
    (count p) v (cycle p) (sr p) (fsr p) (xprlen p) (vecbanks p)
    (vecbanks_count p) (utidx p) (vlmax p) (vl p) (nxfpr_bank p) (nxpr_use
    p) (nfpr_use p) (uts p) (mmu p) (stdout p).

Definition with_cycle (v : Z) (p : processor_t) : processor_t :=
  mk_processor (id p) (run p) (XPR p) (FPR p) (pc p) (evec p) (epc p)
    (badvaddr p) (cause p) (pcr_k0 p) (pcr_k1 p) (tohost p) (fromhost p)
    (count p) (compare p) v (sr p) (fsr p) (xprlen p) (vecbanks p)
    (vecbanks_count p) (utidx p) (vlmax p) (vl p) (nxfpr_bank p) (nxpr_use
    p) (nfpr_use p) (uts p) (mmu p) (stdout p).

Definition with_sr (v : Z) (p : processor_t) : processor_t :=
  mk_processor (id p) (run p) (XPR p) (FPR p) (pc p) (evec p) (epc p)
    (badvaddr p) (cause p) (pcr_k0 p) (pcr_k1 p) (tohost p) (fromhost p)
    (count p) (compare p) (cycle p) v (fsr p) (xprlen p) (vecbanks p)
    (vecbanks_count p) (utidx p) (vlmax p) (vl p) (nxfpr_bank p) (nxpr_use
    p) (nfpr_use p) (uts p) (mmu p) (stdout p).

Definition with_fsr (v : Z) (p : processor_t) : processor_t :=
  mk_processor (id p) (run p) (XPR p) (FPR p) (pc p) (evec p) (epc p)
    (badvaddr p) (cause p) (pcr_k0 p) (pcr_k1 p) (tohost p) (fromhost p)
    (count p) (compare p) (cycle p) (sr p) v (xprlen p) (vecbanks p)
    (vecbanks_count p) (utidx p) (vlmax p) (vl p) (nxfpr_bank p) (nxpr_use
    p) (nfpr_use p) (uts p) (mmu p) (stdout p).

Definition with_xprlen (v : Z) (p : processor_t) : processor_t :=
  mk_processor (id p) (run p) (XPR p) (FPR p) (pc p) (evec p) (epc p)
    (badvaddr p) (cause p) (pcr_k0 p) (pcr_k1 p) (tohost p) (fromhost p)
    (count p) (compare p) (cycle p) (sr p) (fsr p) v (vecbanks p)
    (vecbanks_count p) (utidx p) (vlmax p) (vl p) (nxfpr_bank p) (nxpr_use
    p) (nfpr_use p) (uts p) (mmu p) (stdout p).

Definition with_vlmax (v : Z) (p : processor_t) : processor_t :=
  mk_processor (id p) (run p) (XPR p) (FPR p) (pc p) (evec p) (epc p)
    (badvaddr p) (cause p) (pcr_k0 p) (pcr_k1 p) (tohost p) (fromhost p)
    (count p) (compare p) (cycle p) (sr p) (fsr p) (xprlen p) (vecbanks p)
    (vecbanks_count p) (utidx p) v (vl p) (nxfpr_bank p) (nxpr_use p)
    (nfpr_use p) (uts p) (mmu p) (stdout p).

Definition with_vl (v : Z) (p : processor_t) : processor_t :=
  mk_processor (id p) (run p) (XPR p) (FPR p) (pc p) (evec p) (epc p)
    (badvaddr p) (cause p) (pcr_k0 p) (pcr_k1 p) (tohost p) (fromhost p)
    (count p) (compare p) (cycle p) (sr p) (fsr p) (xprlen p) (vecbanks p)
    (vecbanks_count p) (utidx p) (vlmax p) v (nxfpr_bank p) (nxpr_use p)
    (nfpr_use p) (uts p) (mmu p) (stdout p).

Definition with_nxfpr_bank (v : Z) (p : processor_t) : processor_t :=
  mk_processor (id p) (run p) (XPR p) (FPR p) (pc p) (evec p) (epc p)
    (badvaddr p) (cause p) (pcr_k0 p) (pcr_k1 p) (tohost p) (fromhost p)
    (count p) (compare p) (cycle p) (sr p) (fsr p) (xprlen p) (vecbanks p)
    (vecbanks_count p) (utidx p) (vlmax p) (vl p) v (nxpr_use p) (nfpr_use
    p) (uts p) (mmu p) (stdout p).

Definition with_nxpr_use (v : Z) (p : processor_t) : processor_t :=
  mk_processor (id p) (run p) (XPR p) (FPR p) (pc p) (evec p) (epc p)
    (badvaddr p) (cause p) (pcr_k0 p) (pcr_k1 p) (tohost p) (fromhost p)
    (count p) (compare p) (cycle p) (sr p) (fsr p) (xprlen p) (vecbanks p)
    (vecbanks_count p) (utidx p) (vlmax p) (vl p) (nxfpr_bank p) v (nfpr_use
    p) (uts p) (mmu p) (stdout p).

Definition with_nfpr_use (v : Z) (p : processor_t) : processor_t :=
  mk_processor (id p) (run p) (XPR p) (FPR p) (pc p) (evec p) (epc p)
    (badvaddr p) (cause p) (pcr_k0 p) (pcr_k1 p) (tohost p) (fromhost p)
    (count p) (compare p) (cycle p) (sr p) (fsr p) (xprlen p) (vecbanks p)
    (vecbanks_count p) (utidx p) (vlmax p) (vl p) (nxfpr_bank p) (nxpr_use
    p) v (uts p) (mmu p) (stdout p).

Definition with_vecbanks_count (v : Z) (p : processor_t) : processor_t :=
  mk_processor (id p) (run p) (XPR p) (FPR p) (pc p) (evec p) (epc p)
    (badvaddr p) (cause p) (pcr_k0 p) (pcr_k1 p) (tohost p) (fromhost p)
    (count p) (compare p) (cycle p) (sr p) (fsr p) (xprlen p) (vecbanks p) v
    (utidx p) (vlmax p) (vl p) (nxfpr_bank p) (nxpr_use p) (nfpr_use p) (uts
    p) (mmu p) (stdout p).

Definition with_mmu (v : mmu_t) (p : processor_t) : processor_t :=
  mk_processor (id p) (run p) (XPR p) (FPR p) (pc p) (evec p) (epc p)
    (badvaddr p) (cause p) (pcr_k0 p) (pcr_k1 p) (tohost p) (fromhost p)
    (count p) (compare p) (cycle p) (sr p) (fsr p) (xprlen p) (vecbanks p)
    (vecbanks_count p) (utidx p) (vlmax p) (vl p) (nxfpr_bank p) (nxpr_use
    p) (nfpr_use p) (uts p) v (stdout p).

Definition with_stdout (v : list trace_line) (p : processor_t) : processor_t :=
  mk_processor (id p) (run p) (XPR p) (FPR p) (pc p) (evec p) (epc p)
    (badvaddr p) (cause p) (pcr_k0 p) (pcr_k1 p) (tohost p) (fromhost p)
    (count p) (compare p) (cycle p) (sr p) (fsr p) (xprlen p) (vecbanks p)
    (vecbanks_count p) (utidx p) (vlmax p) (vl p) (nxfpr_bank p) (nxpr_use
    p) (nfpr_use p) (uts p) (mmu p) v.

(** ** Control flow: return, throw, abort *)

Inductive vt_command_t :=
| vt_command_stop
| vt_command_other (n : Z).

(** What the [try] block of [step] can catch. *)
Inductive signal :=
| throw_trap (t : Z)
| throw_vt_command (cmd : vt_command_t)
| throw_halt.

(** The two diagnostics of [take_trap], with the arguments of their format
    strings: ["internal error: bad trap number %d"] and
    ["error mode on core %d!\ntrap %s, pc 0x%016llx"]. *)
Inductive diagnostic :=
| bad_trap_number (t : Z)
| error_mode (core t pc_ : Z).

Inductive outcome (A : Type) :=
| Returns (a : A) (p : processor_t)
| Throws (e : signal) (p : processor_t)
| Aborts (d : diagnostic).
Arguments Returns {A} a p.
Arguments Throws {A} e p.
Arguments Aborts {A} d.

Definition M (A : Type) : Type := processor_t -> outcome A.

Definition ret {A} (a : A) : M A := fun p => Returns a p.

Definition bind {A B} (m : M A) (k : A -> M B) : M B :=
  fun p =>
    match m p with
    | Returns a p' => k a p'
    | Throws e p' => Throws e p'
    | Aborts d => Aborts d
    end.

Definition throw {A} (e : signal) : M A := fun p => Throws e p.
Definition gets {A} (f : processor_t -> A) : M A := fun p => Returns (f p) p.
Definition modify (f : processor_t -> processor_t) : M unit :=
  fun p => Returns tt (f p).

(** Modelled from the spec: the macro [demand] of [common.h]; when the
    condition fails it aborts the whole process with the diagnostic. *)
Definition demand (cond : bool) (d : diagnostic) : M unit :=
  fun p => if cond then Returns tt p else Aborts d.

Notation "'let*' x ':=' m 'in' k" := (bind m (fun x => k))
  (at level 10, x name, m at level 100, k at level 200).

(** ** The operations of [processor_t] *)

Section Processor.
Context {cfg : Config}.

(** The static dispatch arrays, as [initialize_dispatch_table] left them. *)
Variable dispatch_arrays : dispatch_state.

(** The handlers [insn_func_<name>], generated from the instruction
    definitions: given the instruction word and the program counter they
    change the state and return the next program counter, or throw. *)
Variable insn_func : string -> Z -> Z -> M Z.

(** [mmu.load_insn(pc, rvc)]: the instruction word, or the trap of a failed
    fetch; both with the memory subsystem's new state. *)
Variable load_insn : mmu_t -> Z -> bool -> mmu_t * (Z + Z).

(** [processor_t::set_sr] *)
Definition sr_after_write (val : Z) : Z :=
  let sr0 := Z.land (wrap32 val) (Z.lnot SR_ZERO) in
  let sr1 := if RISCV_ENABLE_64BIT then sr0
             else Z.land sr0 (Z.lnot (Z.lor SR_SX SR_UX)) in
  let sr2 := if RISCV_ENABLE_FPU then sr1 else Z.land sr1 (Z.lnot SR_EF) in
  let sr3 := if RISCV_ENABLE_RVC then sr2 else Z.land sr2 (Z.lnot SR_EC) in
  let sr4 := if RISCV_ENABLE_VEC then sr3 else Z.land sr3 (Z.lnot SR_EV) in
  sr4.

Definition set_sr (val : Z) (p : processor_t) : processor_t :=
  let sr' := sr_after_write val in
  let mmu' :=
    mk_mmu (truthy (Z.land sr' SR_VM)) (truthy (Z.land sr' SR_S))
           (S (tlb_flushes (mmu p))) (mmu_badvaddr (mmu p)) in
  let xprlen' :=
    if truthy (if truthy (Z.land sr' SR_S) then Z.land sr' SR_SX
               else Z.land sr' SR_UX)
    then 64 else 32 in
  with_xprlen xprlen' (with_mmu mmu' (with_sr sr' p)).

(** [processor_t::set_fsr] *)
Definition set_fsr (val : Z) (p : processor_t) : processor_t :=
  with_fsr (Z.land (wrap32 val) (Z.lnot FSR_ZERO)) p.

(** [processor_t::reset].  The lane index [utidx] is given the value -1 as
    the source writes it. *)
Definition reset (p : processor_t) : processor_t :=
  let zeroed :=
    mk_processor (id p) false (vreplicate NXPR 0) (vreplicate NFPR 0)
      0 0 0 0 0 0 0 0 0 0 0 0
      (sr p) (fsr p) (xprlen p)
      (vecbanks p) (vecbanks_count p) (utidx p) (vlmax p) (vl p)
      (nxfpr_bank p) (nxpr_use p) (nfpr_use p) (uts p) (mmu p) (stdout p) in
  let q := set_fsr 0 (set_sr (Z.lor SR_S SR_SX) zeroed) in
  mk_processor (id q) (run q) (XPR q) (FPR q)
    (pc q) (evec q) (epc q) (badvaddr q) (cause q) (pcr_k0 q) (pcr_k1 q)
    (tohost q) (fromhost q) (count q) (compare q) (cycle q)
    (sr q) (fsr q) (xprlen q)
    255 8 (-1) 32 0 256 32 32
    (replicate (Z.to_nat MAX_UTS) None) (mmu q) (stdout q).

(** [processor_t::vcfg], in [int] arithmetic: [vlmax] is an [int], as
    [std::min(vlmax, vlapp)] with the [int] parameter of [setvl] shows. *)
Definition vcfg (p : processor_t) : processor_t :=
  let u := wrap_int (nxpr_use p + nfpr_use p) in
  let vlmax' :=
    if u <? 2
    then wrap_int (nxfpr_bank p * vecbanks_count p)
    else wrap_int (wrap_int (nxfpr_bank p ÷ wrap_int (u - 1))
                   * vecbanks_count p) in
  with_vlmax (Z.min vlmax' MAX_UTS) p.

(** [processor_t::setvl] *)
Definition setvl (vlapp : Z) (p : processor_t) : processor_t :=
  with_vl (Z.min (vlmax p) vlapp) p.

(** [processor_t::take_interrupt] *)
Definition take_interrupt : M unit :=
  fun p =>
    let interrupts :=
      wrap32 (Z.shiftr (Z.land (cause p) CAUSE_IP) CAUSE_IP_SHIFT) in
    let interrupts :=
      Z.land interrupts (Z.shiftr (Z.land (sr p) SR_IM) SR_IM_SHIFT) in
    if truthy interrupts && truthy (Z.land (sr p) SR_ET)
    then Throws (throw_trap trap_interrupt) p
    else Returns tt p.

(** The bit of the cause register that interrupt line [irq] sets. *)
Definition ip_bit (irq : Z) : Z := Z.shiftl 1 (irq + CAUSE_IP_SHIFT).

(** The argument of [set_sr] in [take_trap]:
    [(((sr & ~SR_ET) | SR_S) & ~SR_PS) | ((sr & SR_S) ? SR_PS : 0)]. *)
Definition sr_on_trap (sr_ : Z) : Z :=
  Z.lor (Z.land (Z.lor (Z.land sr_ (Z.lnot SR_ET)) SR_S) (Z.lnot SR_PS))
        (if truthy (Z.land sr_ SR_S) then SR_PS else 0).

(** [(cause & ~CAUSE_EXCCODE) | (t << CAUSE_EXCCODE_SHIFT)].  The shift is
    a shift of [int t]: its result is an [int], sign-extended when it is
    combined with the 64 bits of the cause register; the mask, a constant
    of the header, is taken at the width of the register. *)
Definition cause_on_trap (cause_ t : Z) : Z :=
  wrap64 (Z.lor (Z.land cause_ (Z.lnot CAUSE_EXCCODE))
                (wrap_int (Z.shiftl t CAUSE_EXCCODE_SHIFT))).

(** [processor_t::take_trap] *)
Definition take_trap (t : Z) (noisy : bool) : M unit :=
  let* _ := demand (t <? NUM_TRAPS) (bad_trap_number t) in
  let* p := gets (fun p => p) in
  let* _ := demand (truthy (Z.land (sr p) SR_ET))
                   (error_mode (id p) t (pc p)) in
  let* _ := (if noisy
             then modify (with_stdout (stdout p ++ [trace_trap (id p) t (pc p)]))
             else ret tt) in
  let* _ := modify (fun p => set_sr (sr_on_trap (sr p)) p) in
  let* _ := modify (fun p => with_cause (cause_on_trap (cause p) t) p) in
  let* _ := modify (fun p => with_epc (pc p) p) in
  let* _ := modify (fun p => with_pc (evec p) p) in
  modify (fun p => with_badvaddr (mmu_badvaddr (mmu p)) p).

(** [processor_t::deliver_ipi] *)
Definition deliver_ipi (p : processor_t) : processor_t :=
  with_run true (with_cause (wrap64 (Z.lor (cause p) (ip_bit IPI_IRQ))) p).

(** [processor_t::disasm], as far as it writes the trace line. *)
Definition disasm (insn pc_ : Z) : M unit :=
  modify (fun p => with_stdout (stdout p ++ [trace_insn (id p) pc_ insn]) p).

(** The call [dispatch_table[insn.bits % DISPATCH_TABLE_SIZE](this, insn, pc)].
    The constructor fills the table before any processor steps and no slot
    of a filled table is null ([bind_slot] never gives [NULL]); the call
    through a null slot, which the source does not define, is given the
    illegal-instruction trap. *)
Definition call_slot (insn pc_ : Z) : M Z :=
  match table_select dispatch_arrays insn with
  | Some (Selected name) => insn_func name insn pc_
  | Some IllegalInstruction | None =>
    throw (throw_trap trap_illegal_instruction)
  end.

(** The macro [execute_insn] of [step]. *)
Definition execute_insn (noisy : bool) : M unit :=
  fun p =>
    match load_insn (mmu p) (pc p) (truthy (Z.land (sr p) SR_EC)) with
    | (mmu', inr t) => Throws (throw_trap t) (with_mmu mmu' p)
    | (mmu', inl insn) =>
      (let* _ := (if noisy then disasm insn (pc p) else ret tt) in
       let* next_pc := (fun q => call_slot insn (pc q) q) in
       let* _ := modify (with_pc next_pc) in
       modify (fun q => with_XPR (vinsert 0%fin 0 (XPR q)) q))
        (with_mmu mmu' p)
    end.

(** [k] times [execute_insn(noisy)], one after the other. *)
Fixpoint execute_insns (k : nat) (noisy : bool) : M unit :=
  match k with
  | O => ret tt
  | S k' => let* _ := execute_insn noisy in execute_insns k' noisy
  end.

(** How a loop of the [try] block ends: it ran to its end with the local
    [i], an exception left it with the local [i] as it was, the process
    aborted, or the fuel of the model ran out. *)
Inductive loop_result :=
| loop_done (i : Z) (p : processor_t)
| loop_throws (e : signal) (i : Z) (p : processor_t)
| loop_aborts (d : diagnostic)
| loop_fuel.

(** [for( ; i < n; i++) execute_insn(noisy);] *)
Fixpoint insn_loop (fuel : nat) (noisy : bool) (n i : Z) (p : processor_t)
    : loop_result :=
  if i <? n then
    match fuel with
    | O => loop_fuel
    | S fuel' =>
      match execute_insn noisy p with
      | Returns _ p' => insn_loop fuel' noisy n (wrap64 (i + 1)) p'
      | Throws e p' => loop_throws e i p'
      | Aborts d => loop_aborts d
      end
    end
  else loop_done i p.

(** [for( ; n > 3 && i < n-3; i+=4)] with its four [execute_insn(false)]. *)
Fixpoint insn_loop4 (fuel : nat) (n i : Z) (p : processor_t) : loop_result :=
  if (3 <? n) && (i <? n - 3) then
    match fuel with
    | O => loop_fuel
    | S fuel' =>
      match (let* _ := execute_insn false in let* _ := execute_insn false in
             let* _ := execute_insn false in execute_insn false) p with
      | Returns _ p' => insn_loop4 fuel' n (wrap64 (i + 4)) p'
      | Throws e p' => loop_throws e i p'
      | Aborts d => loop_aborts d
      end
    end
  else loop_done i p.

(** The body of [try]. *)
Definition try_block (fuel : nat) (noisy : bool) (n i : Z) (p : processor_t)
    : loop_result :=
  match take_interrupt p with
  | Throws e p' => loop_throws e i p'
  | Aborts d => loop_aborts d
  | Returns _ p1 =>
    if noisy then insn_loop fuel true n i p1
    else match insn_loop4 fuel n i p1 with
         | loop_done i' p2 => insn_loop fuel false n i' p2
         | r => r
         end
  end.

(** [typeof(count) max_count = -1]: the largest value of the counter. *)
Definition count_max : Z := 2 ^ count_bits - 1.

(** The lines of [step] after the loop: the cycle and instruction counters
    and the timer interrupt.  [max_count - i] is computed in [size_t]. *)
Definition advance_counters (i : Z) (p : processor_t) : processor_t :=
  let p := with_cycle (wrap64 (cycle p + i)) p in
  let old_count := count p in
  let max_count := count_max in
  let p := with_count (wrap count_bits (count p + i)) p in
  if (old_count <? compare p)
     && ((count p >=? compare p) || (old_count >? wrap64 (max_count - i)))
  then with_cause (wrap64 (Z.lor (cause p) (ip_bit TIMER_IRQ))) p
  else p.

Inductive step_result :=
| step_returns (p : processor_t)
| step_aborts (d : diagnostic)
| step_fuel.

(** [while(1) try { ... } catch ...] *)
Fixpoint step_loop (fuel : nat) (noisy : bool) (n i : Z) (p : processor_t)
    : step_result :=
  match fuel with
  | O => step_fuel
  | S fuel' =>
    match try_block (S fuel') noisy n i p with
    | loop_done i' p' => step_returns (advance_counters i' p')
    | loop_throws (throw_trap t) i' p' =>
      let i' := wrap64 (i' + 1) in
      match take_trap t noisy p' with
      | Returns _ p'' => step_loop fuel' noisy n i' p''
      | Throws _ _ => step_fuel (* [take_trap] has no [throw] *)
      | Aborts d => step_aborts d
      end
    | loop_throws (throw_vt_command cmd) i' p' =>
      let i' := wrap64 (i' + 1) in
      match cmd with
      | vt_command_stop => step_returns (advance_counters i' p')
      | _ => step_loop fuel' noisy n i' p'
      end
    | loop_throws throw_halt i' p' => step_returns (reset p')
    | loop_aborts d => step_aborts d
    | loop_fuel => step_fuel
    end
  end.

(** [processor_t::step] *)
Definition step (fuel : nat) (n : Z) (noisy : bool) (p : processor_t)
    : step_result :=
  if negb (run p) then step_returns p
  else step_loop fuel noisy n 0 p.

End Processor.

(** ** The vocabulary of the properties *)

Section Vocabulary.
Context {cfg : Config}.

(** The table is indexed by the low bits of the word: its size is a power
    of two. *)
Definition table_size_ok : Prop :=
  exists k : Z, 0 <= k /\ DISPATCH_TABLE_SIZE = 2 ^ k.

(** The status bits a write can set: neither reserved nor behind a
    capability that the build leaves out. *)
Definition implemented_bits : Z := sr_after_write (-1).

Definition implemented (m : Z) : Prop := Z.land m implemented_bits = m.

(** What the trap protocol needs of the bit layout in the headers: the
    trap-enable, supervisor and previous-supervisor masks are implemented
    and do not overlap, and the exception-code field of the cause register
    holds every legal trap number. *)
Record layout_ok : Prop := mk_layout_ok {
  S_implemented : implemented SR_S;
  PS_implemented : implemented SR_PS;
  ET_S_disjoint : Z.land SR_ET SR_S = 0;
  ET_PS_disjoint : Z.land SR_ET SR_PS = 0;
  S_PS_disjoint : Z.land SR_S SR_PS = 0;
  EXCCODE_range : 0 <= CAUSE_EXCCODE < 2 ^ 64;
  EXCCODE_SHIFT_nonneg : 0 <= CAUSE_EXCCODE_SHIFT;
  EXCCODE_fits : forall t, 0 <= t < NUM_TRAPS ->
    Z.land (Z.shiftl t CAUSE_EXCCODE_SHIFT) CAUSE_EXCCODE
    = Z.shiftl t CAUSE_EXCCODE_SHIFT
}.

(** The exception-code field of the cause register. *)
Definition exccode (p : processor_t) : Z :=
  Z.shiftr (Z.land (cause p) CAUSE_EXCCODE) CAUSE_EXCCODE_SHIFT.

(** The timer's interrupt-pending bit of the cause register. *)
Definition timer_bit : Z := TIMER_IRQ + CAUSE_IP_SHIFT.

Definition timer_pending (p : processor_t) : bool :=
  Z.testbit (cause p) timer_bit.

(** The counter reaches the compare threshold at one of the [i] increments
    of a batch, counting with the wrap-around of its type. *)
Definition reaches_compare (p : processor_t) (i : Z) : Prop :=
  exists k, 1 <= k <= i /\ wrap count_bits (count p + k) = compare p.

(** The counter and its threshold are values of [typeof(count)], which is at
    least as wide as [int] and no wider than [size_t]. *)
Definition counters_ok (p : processor_t) : Prop :=
  32 <= count_bits <= 64
  /\ 0 <= count p < 2 ^ count_bits
  /\ 0 <= compare p < 2 ^ count_bits.

(** [vcfg] computes within [int]: the bank width, the total usage and the
    product it assigns have [int] values. *)
Definition vcfg_in_range (p : processor_t) : Prop :=
  let u := nxpr_use p + nfpr_use p in
  in_int (nxfpr_bank p) /\ in_int u
  /\ in_int (if u <? 2 then nxfpr_bank p * vecbanks_count p
             else (nxfpr_bank p ÷ (u - 1)) * vecbanks_count p).

End Vocabulary.

(** ** A reference configuration and the scenarios of the tests

    One configuration to run the properties on: a 32-bit counter, a table of
    1024 slots, 2048 lanes, and a status layout with trap-enable in bit 0,
    the feature enables in bits 1 to 3, previous-supervisor and supervisor
    in bits 4 and 5, the width bits in 6 and 7, the interrupt mask in bits 8
    to 15 and virtual memory in bit 16. *)

Definition rv_config : Config := {|
  DISPATCH_TABLE_SIZE := 1024;
  SR_ET := 0x1; SR_EF := 0x2; SR_EV := 0x4; SR_EC := 0x8;
  SR_PS := 0x10; SR_S := 0x20; SR_UX := 0x40; SR_SX := 0x80;
  SR_IM := 0xFF00; SR_VM := 0x10000; SR_ZERO := 0xFFFE0000;
  SR_IM_SHIFT := 8;
  FSR_ZERO := 0xFFFFFF00;
  CAUSE_EXCCODE := 0xFF; CAUSE_EXCCODE_SHIFT := 0;
  CAUSE_IP := 0xFF00; CAUSE_IP_SHIFT := 8;
  TIMER_IRQ := 7; IPI_IRQ := 5;
  NUM_TRAPS := 24;
  trap_interrupt := 5;
  trap_illegal_instruction := 2;
  MAX_UTS := 2048;
  count_bits := 32;
  RISCV_ENABLE_64BIT := true;
  RISCV_ENABLE_FPU := true;
  RISCV_ENABLE_RVC := false;
  RISCV_ENABLE_VEC := true
|}.

(** A processor object before its constructor calls [reset]. *)
Definition raw_processor : processor_t :=
  mk_processor 0 true (vreplicate NXPR 7) (vreplicate NFPR 7)
    7 7 7 7 7 7 7 7 7 7 7 7 7 7 7 7 7 7 7 7 7 7 7 [] (mk_mmu false false 0 0) [].

(** All-zero memory: every fetch returns the word 0. *)
Definition zero_memory (m : mmu_t) (addr : Z) (rvc : bool) : mmu_t * (Z + Z) :=
  (m, inl 0).

(** A handler that falls through to the next instruction. *)
Definition fallthrough (name : string) (insn pc_ : Z) : M Z := ret (pc_ + 4).

(** A handler that writes 99 to every integer register. *)
Definition clobber (name : string) (insn pc_ : Z) : M Z :=
  fun p => Returns (pc_ + 4) (with_XPR (vreplicate NXPR 99) p).

(** An opcode table with no line: no word is a legal instruction. *)
Definition no_opcodes : list opcode_entry := [].

(** One instruction whose pattern has a bit above the table index. *)
Definition lone_opcode : list opcode_entry := [("lone"%string, 0x403, 0x47F)].

(** Two instructions with the same low bits, told apart by bit 10. *)
Definition colliding_opcodes : list opcode_entry :=
  [("first"%string, 0x003, 0x47F); ("second"%string, 0x403, 0x47F)].

Definition arrays_of (cfg : Config) (opcodes : list opcode_entry)
    : dispatch_state :=
  initialize_dispatch_table opcodes static_dispatch.

(** The scenario: reset, compare 0, trap vector 0x100, traps enabled in
    supervisor mode. *)
Definition scenario_setup (cfg : Config) : processor_t :=
  set_sr (Z.lor SR_S SR_ET)
    (with_evec 0x100 (with_compare 0 (reset raw_processor))).

(** The same, made runnable by an explicit start. *)
Definition scenario_started (cfg : Config) : processor_t :=
  with_run true (scenario_setup cfg).

(** [step(5, false)] on all-zero memory with no legal instruction. *)
Definition scenario_step (cfg : Config) (p : processor_t) : step_result :=
  step (arrays_of cfg no_opcodes) fallthrough zero_memory 10 5 false p.

(** One instruction that every word matches. *)
Definition any_opcode : list opcode_entry := [("any"%string, 0, 0)].

(** A counter one step before it wraps, with the threshold just after the
    wrap. *)
Definition late_counter (cfg : Config) : processor_t :=
  with_count (2 ^ 32 - 1) (with_compare 5 (reset raw_processor)).

(** The register usage of the test: one integer and one floating-point
    register for each lane. *)
Definition one_register_each (cfg : Config) : processor_t :=
  with_nxpr_use 1 (with_nfpr_use 1 (reset raw_processor)).


(** ** The constructor and the lanes *)

Definition with_utidx (v : Z) (p : processor_t) : processor_t :=
  mk_processor (id p) (run p) (XPR p) (FPR p) (pc p) (evec p) (epc p)
    (badvaddr p) (cause p) (pcr_k0 p) (pcr_k1 p) (tohost p) (fromhost p)
    (count p) (compare p) (cycle p) (sr p) (fsr p) (xprlen p) (vecbanks p)
    (vecbanks_count p) v (vlmax p) (vl p) (nxfpr_bank p) (nxpr_use p)
    (nfpr_use p) (uts p) (mmu p) (stdout p).

Definition with_uts (v : list (option nat)) (p : processor_t) : processor_t :=
  mk_processor (id p) (run p) (XPR p) (FPR p) (pc p) (evec p) (epc p)
    (badvaddr p) (cause p) (pcr_k0 p) (pcr_k1 p) (tohost p) (fromhost p)
    (count p) (compare p) (cycle p) (sr p) (fsr p) (xprlen p) (vecbanks p)
    (vecbanks_count p) (utidx p) (vlmax p) (vl p) (nxfpr_bank p) (nxpr_use
    p) (nfpr_use p) v (mmu p) (stdout p).

Section Lanes.
Context {cfg : Config}.

(** [processor_t::processor_t]: [initialize_dispatch_table] on the static
    arrays, then [reset].  [storage] is the object as allocated, with its
    [mmu] member constructed and whatever the memory held in the others; the
    cache simulators the constructor sets to [NULL] only gather statistics
    and are not part of the state. *)
Definition processor_new (opcodes : list opcode_entry)
    (arrays : dispatch_state) (storage : processor_t)
    : dispatch_state * processor_t :=
  (initialize_dispatch_table opcodes arrays, reset storage).

(** The body of the loop of [init] for lane [i], after [new processor_t]. *)
Definition setup_lane (_id : Z) (i : nat) (lane : processor_t) : processor_t :=
  let lane := with_id _id lane in
  let lane := set_sr (Z.lor (sr lane) SR_EF) lane in
  let lane := set_sr (Z.lor (sr lane) SR_EV) lane in
  with_utidx (Z.of_nat i) lane.

(** [processor_t::init], in a build without [RISCV_ENABLE_ICSIM].  The lanes
    are allocated one after the other; [uts[i]] holds the place of lane [i]
    in the list of the lanes, and [storage i] is the memory lane [i] is
    built in. *)
Definition init (opcodes : list opcode_entry) (_id : Z)
    (storage : nat -> processor_t) (arrays : dispatch_state)
    (p : processor_t) : dispatch_state * processor_t * list processor_t :=
  let places := seq 0 (Z.to_nat MAX_UTS) in
  let arrays' :=
    fold_left (fun a i => fst (processor_new opcodes a (storage i)))
              places arrays in
  let lanes :=
    (fun i => setup_lane _id i (snd (processor_new opcodes arrays (storage i))))
      <$> places in
  (arrays', with_uts (Some <$> places) (with_id _id p), lanes).

End Lanes.

(** The reference configuration in a build for 32 bits only. *)
Definition rv32_config : Config := {|
  DISPATCH_TABLE_SIZE := 1024;
  SR_ET := 0x1; SR_EF := 0x2; SR_EV := 0x4; SR_EC := 0x8;
  SR_PS := 0x10; SR_S := 0x20; SR_UX := 0x40; SR_SX := 0x80;
  SR_IM := 0xFF00; SR_VM := 0x10000; SR_ZERO := 0xFFFE0000;
  SR_IM_SHIFT := 8;
  FSR_ZERO := 0xFFFFFF00;
  CAUSE_EXCCODE := 0xFF; CAUSE_EXCCODE_SHIFT := 0;
  CAUSE_IP := 0xFF00; CAUSE_IP_SHIFT := 8;
  TIMER_IRQ := 7; IPI_IRQ := 5;
  NUM_TRAPS := 24;
  trap_interrupt := 5;
  trap_illegal_instruction := 2;
  MAX_UTS := 2048;
  count_bits := 32;
  RISCV_ENABLE_64BIT := false;
  RISCV_ENABLE_FPU := false;
  RISCV_ENABLE_RVC := false;
  RISCV_ENABLE_VEC := false
|}.

(** ** Handlers for the scenarios of the step loop *)

(** A handler that throws the trap [t] at the address [addr] and falls
    through elsewhere. *)
Definition fault_at (addr t : Z) (name : string) (insn pc_ : Z) : M Z :=
  if pc_ =? addr then throw (throw_trap t) else ret (pc_ + 4).

(** A handler that throws the halt signal at the address [addr]. *)
Definition halt_at (addr : Z) (name : string) (insn pc_ : Z) : M Z :=
  if pc_ =? addr then throw throw_halt else ret (pc_ + 4).

(** A handler that throws the stop command of the vector unit at the
    address [addr]. *)
Definition stop_at (addr : Z) (name : string) (insn pc_ : Z) : M Z :=
  if pc_ =? addr then throw (throw_vt_command vt_command_stop)
  else ret (pc_ + 4).

(** A processor in supervisor mode with traps enabled and line 5 of the
    interrupt mask set, and nothing pending. *)
Definition listening (cfg : Config) : processor_t :=
  set_sr (Z.lor (Z.lor SR_S SR_ET) (Z.shiftl 1 (IPI_IRQ + SR_IM_SHIFT)))
    (reset raw_processor).

(** A runnable processor after [reset], with the 32 registers of each kind
    in use that [reset] configures. *)
Definition started (cfg : Config) : processor_t :=
  with_run true (reset raw_processor).

(** * Properties *)

(** ** The dispatch table against a linear scan of [opcodes.h] *)

Section DispatchFacts.
Context {cfg : Config}.

Lemma include_opcodes_app opcodes i chain_i :
  include_opcodes opcodes i chain_i
  = chain_i ++ flat_map (DECLARE_INSN i []) opcodes.
Proof.
  unfold include_opcodes. revert chain_i.
  induction opcodes as [|[[name opc] msk] rest IH]; intros chain_i; simpl.
  - by rewrite app_nil_r.
  - rewrite IH. destruct (_ =? _); simpl.
    + by rewrite <- app_assoc.
    + done.
Qed.

Lemma initialized_chain opcodes (i : nat) :
  (i < table_len)%nat ->
  dispatch_chain (initialize_dispatch_table opcodes static_dispatch) !! i
  = Some (flat_map (DECLARE_INSN i []) opcodes).
Proof.
  intros Hi. unfold initialize_dispatch_table, static_dispatch. simpl.
  assert (replicate table_len (@None insn_func_t) !! 0%nat = Some None) as ->
    by (apply lookup_replicate_2; lia).
  simpl. rewrite list_lookup_imap, lookup_replicate_2 by done. simpl.
  by rewrite include_opcodes_app.
Qed.

Lemma initialized_table opcodes (i : nat) :
  (i < table_len)%nat ->
  dispatch_table (initialize_dispatch_table opcodes static_dispatch) !! i
  = Some (bind_slot (flat_map (DECLARE_INSN i []) opcodes)).
Proof.
  intros Hi. pose proof (initialized_chain opcodes i Hi) as Hc.
  unfold initialize_dispatch_table, static_dispatch in *. simpl in *.
  assert (replicate table_len (@None insn_func_t) !! 0%nat = Some None) as Hz
    by (apply lookup_replicate_2; lia).
  rewrite Hz in *. simpl in *. by rewrite list_lookup_fmap, Hc.
Qed.

Lemma slot_in_table bits : table_size_ok -> (slot_of bits < table_len)%nat.
Proof.
  intros (k & Hk & HS). unfold slot_of, table_len.
  assert (0 < DISPATCH_TABLE_SIZE) by (rewrite HS; apply Z.pow_pos_nonneg; lia).
  pose proof (Z.mod_pos_bound bits DISPATCH_TABLE_SIZE). lia.
Qed.

(** A line that the word matches in full is a candidate of the word's slot. *)
Lemma match_is_candidate bits opc msk :
  table_size_ok ->
  Z.land bits msk = opc ->
  Z.land (Z.of_nat (slot_of bits)) msk
  = Z.land (Z.land opc msk) (DISPATCH_TABLE_SIZE - 1).
Proof.
  intros (k & Hk & HS) Hm. unfold slot_of.
  assert (0 < DISPATCH_TABLE_SIZE) by (rewrite HS; apply Z.pow_pos_nonneg; lia).
  rewrite Z2Nat.id by (apply Z.mod_pos_bound; lia).
  rewrite HS, <- Z.land_ones by done.
  replace (2 ^ k - 1) with (Z.ones k) by (rewrite Z.ones_equiv; lia).
  subst opc. apply Z.bits_inj'. intros n Hn.
  rewrite !Z.land_spec.
  by destruct (Z.testbit bits n), (Z.testbit msk n), (Z.testbit (Z.ones k) n).
Qed.

(** Scanning the candidates of a slot finds what the scan of the whole
    table finds, as long as every full match is among the candidates. *)
Lemma scan_candidates bits (i : nat) opcodes :
  (forall name opc msk, (name, opc, msk) ∈ opcodes ->
     Z.land bits msk = opc ->
     Z.land (Z.of_nat i) msk = Z.land (Z.land opc msk) (DISPATCH_TABLE_SIZE - 1)) ->
  scan_chain bits (flat_map (DECLARE_INSN i []) opcodes)
  = linear_scan opcodes bits.
Proof.
  induction opcodes as [|[[name opc] msk] rest IH]; intros Hc; simpl; [done|].
  destruct (Z.land bits msk =? opc) eqn:Hfull.
  - pose proof Hfull as Hfull'. apply Z.eqb_eq in Hfull'.
    rewrite (Hc name opc msk); [|by left|done].
    rewrite Z.eqb_refl. simpl. by rewrite Hfull.
  - rewrite <- IH by (intros; eapply Hc; [by right|done]).
    destruct (Z.land (Z.of_nat i) msk =? _); simpl; [|done].
    by rewrite Hfull.
Qed.

Lemma candidates_eq opcodes bits :
  table_size_ok ->
  candidates opcodes bits = flat_map (DECLARE_INSN (slot_of bits) []) opcodes.
Proof.
  intros Hs. unfold candidates.
  by rewrite initialized_chain by by apply slot_in_table.
Qed.

Lemma dispatch_select_linear opcodes bits :
  table_size_ok ->
  dispatch_select (initialize_dispatch_table opcodes static_dispatch) bits
  = linear_scan opcodes bits.
Proof.
  intros Hs. unfold dispatch_select.
  rewrite initialized_chain by by apply slot_in_table. simpl.
  apply scan_candidates. intros. by apply match_is_candidate.
Qed.

Lemma table_select_eq opcodes bits :
  table_size_ok ->
  table_select (initialize_dispatch_table opcodes static_dispatch) bits
  = Some (match candidates opcodes bits with
          | [c] => Selected (func c)
          | _ => linear_scan opcodes bits
          end).
Proof.
  intros Hs. unfold table_select.
  rewrite initialized_table by by apply slot_in_table.
  rewrite dispatch_select_linear, <- candidates_eq by done. unfold bind_slot.
  by destruct (candidates opcodes bits) as [|c [|c' l]].
Qed.

Lemma bind_slot_not_null chain_i : is_Some (bind_slot chain_i).
Proof. unfold bind_slot. by destruct chain_i as [|c [|c' l]]. Qed.

(** The guard on [dispatch_table[0]]: a second call changes nothing. *)
Lemma initialize_dispatch_table_again opcodes :
  table_size_ok ->
  initialize_dispatch_table opcodes
    (initialize_dispatch_table opcodes static_dispatch)
  = initialize_dispatch_table opcodes static_dispatch.
Proof.
  intros Hs. pose proof (slot_in_table 0 Hs) as H0.
  change (slot_of 0) with (Z.to_nat (0 mod DISPATCH_TABLE_SIZE)) in H0.
  rewrite Z.mod_0_l in H0
    by (destruct Hs as (k & Hk & ->); apply Z.pow_nonzero; lia).
  unfold initialize_dispatch_table at 1.
  rewrite (initialized_table opcodes 0 H0).
  by destruct (bind_slot_not_null (flat_map (DECLARE_INSN 0 []) opcodes))
    as [f ->].
Qed.

(** C1, amended.  With a table whose size is a power of two: a word whose
    slot does not have exactly one candidate, or that some line of
    [opcodes.h] matches in full, is dispatched as the first-match linear
    scan of [opcodes.h] dispatches it (the same handler, or the
    illegal-instruction trap); and a slot with exactly one candidate runs
    that candidate's handler without testing the pattern. *)
Theorem table_select_linear_scan opcodes bits :
  table_size_ok ->
  (length (candidates opcodes bits) ≠ 1%nat
   \/ linear_scan opcodes bits ≠ IllegalInstruction ->
   table_select (initialize_dispatch_table opcodes static_dispatch) bits
   = Some (linear_scan opcodes bits))
  /\ (forall c, candidates opcodes bits = [c] ->
      table_select (initialize_dispatch_table opcodes static_dispatch) bits
      = Some (Selected (func c))).
Proof.
  intros Hs. rewrite table_select_eq by done. split.
  - intros Hcase.
    destruct (candidates opcodes bits) as [|c [|c' l]] eqn:Hc; try done.
    destruct Hcase as [Hlen|Hmatch]; [done|].
    f_equal. revert Hmatch.
    rewrite <- (dispatch_select_linear opcodes bits) by done.
    unfold dispatch_select. fold (candidates opcodes bits). rewrite Hc. simpl.
    by destruct (_ =? _).
  - by intros c ->.
Qed.

End DispatchFacts.

(** ** The status register *)

(** Equalities of bit masks, proved bit by bit. *)
Ltac bitwise n Hn :=
  apply Z.bits_inj'; intros n Hn;
  repeat first [ rewrite Z.land_spec | rewrite Z.lor_spec
               | rewrite Z.lnot_spec by exact Hn | rewrite Z.bits_0 ].

(** What an equation between masks says of bit [n]. *)
Ltac at_bit H n Hn Hb :=
  pose proof (f_equal (fun x => Z.testbit x n) H) as Hb; cbv beta in Hb;
  repeat first [ rewrite Z.land_spec in Hb | rewrite Z.lor_spec in Hb
               | rewrite Z.lnot_spec in Hb by exact Hn
               | rewrite Z.bits_0 in Hb ].

Section StatusFacts.
Context {cfg : Config}.

Lemma testbit_wrap w x n :
  0 <= w -> Z.testbit (wrap w x) n = (n <? w) && Z.testbit x n.
Proof. intros Hw. unfold wrap. by apply Z.testbit_mod_pow2. Qed.

Lemma sr_set_sr val p : sr (set_sr val p) = sr_after_write val.
Proof. reflexivity. Qed.

(** A write sets no bit that the written value does not have. *)
Lemma sr_after_write_bit val n :
  0 <= n -> Z.testbit (sr_after_write val) n = true -> Z.testbit val n = true.
Proof.
  intros Hn. unfold sr_after_write, wrap32.
  destruct RISCV_ENABLE_64BIT, RISCV_ENABLE_FPU, RISCV_ENABLE_RVC,
    RISCV_ENABLE_VEC;
    rewrite ?Z.land_spec, testbit_wrap by lia;
    rewrite !andb_true_iff; tauto.
Qed.

Lemma sr_after_write_implemented val :
  sr_after_write val = Z.land (wrap32 val) implemented_bits.
Proof.
  unfold implemented_bits, sr_after_write, wrap32.
  destruct RISCV_ENABLE_64BIT, RISCV_ENABLE_FPU, RISCV_ENABLE_RVC,
    RISCV_ENABLE_VEC;
    bitwise n Hn; rewrite !testbit_wrap by lia;
    change (Z.testbit (-1) n) with (Z.testbit (Z.lnot 0) n);
    rewrite Z.lnot_spec, Z.bits_0 by done;
    destruct (n <? 32), (Z.testbit val n); simpl; try done;
    by rewrite ?andb_true_r.
Qed.

(** An implemented mask lies in the 32 bits of the register, and a write
    stores the written value under it. *)
Lemma implemented_bit m n :
  implemented m -> 0 <= n -> Z.testbit m n = true ->
  n < 32 /\ Z.testbit implemented_bits n = true.
Proof.
  intros Hm Hn Hb. unfold implemented in Hm. at_bit Hm n Hn Hmn.
  rewrite Hb in Hmn. simpl in Hmn. split; [|done].
  pose proof (sr_after_write_implemented (-1)) as Hi.
  change (sr_after_write (-1)) with implemented_bits in Hi.
  unfold wrap32 in Hi. at_bit Hi n Hn Hin.
  rewrite testbit_wrap, Hmn in Hin by lia.
  destruct (Z.ltb_spec n 32); [lia|done].
Qed.

Lemma sr_after_write_mask val m :
  implemented m -> Z.land (sr_after_write val) m = Z.land val m.
Proof.
  intros Hm. rewrite sr_after_write_implemented. unfold wrap32.
  bitwise n Hn. rewrite testbit_wrap by lia.
  destruct (Z.testbit m n) eqn:Hb; [|by rewrite !andb_false_r].
  destruct (implemented_bit m n Hm Hn Hb) as [Hlt ->].
  destruct (Z.ltb_spec n 32); [|lia]. by rewrite !andb_true_r.
Qed.

(** C5.  Whatever value [set_sr] is given, the status register it leaves
    has no reserved bit ([SR_ZERO]) set and no bit of a capability that the
    build leaves out: [SR_SX] and [SR_UX] without [RISCV_ENABLE_64BIT],
    [SR_EF] without [RISCV_ENABLE_FPU], [SR_EC] without [RISCV_ENABLE_RVC],
    [SR_EV] without [RISCV_ENABLE_VEC]. *)
Theorem set_sr_masks_reserved_and_disabled val p :
  Z.land (sr (set_sr val p)) SR_ZERO = 0
  /\ Z.land (sr (set_sr val p))
       (if RISCV_ENABLE_64BIT then 0 else Z.lor SR_SX SR_UX) = 0
  /\ Z.land (sr (set_sr val p)) (if RISCV_ENABLE_FPU then 0 else SR_EF) = 0
  /\ Z.land (sr (set_sr val p)) (if RISCV_ENABLE_RVC then 0 else SR_EC) = 0
  /\ Z.land (sr (set_sr val p)) (if RISCV_ENABLE_VEC then 0 else SR_EV) = 0.
Proof.
  rewrite sr_set_sr. unfold sr_after_write.
  destruct RISCV_ENABLE_64BIT, RISCV_ENABLE_FPU, RISCV_ENABLE_RVC,
    RISCV_ENABLE_VEC;
    cbv beta iota zeta; repeat split; rewrite ?Z.land_0_r; try done;
    bitwise n Hn;
    repeat match goal with
           | |- context [Z.testbit ?x ?k] => destruct (Z.testbit x k); simpl
           end; done.
Qed.

End StatusFacts.

(** ** Trap delivery *)

Section TrapFacts.
Context {cfg : Config}.

Lemma truthy_true x : truthy x = true <-> x ≠ 0.
Proof. unfold truthy. destruct (Z.eqb_spec x 0); simpl; split; congruence. Qed.

Lemma truthy_false x : truthy x = false <-> x = 0.
Proof. unfold truthy. destruct (Z.eqb_spec x 0); simpl; split; congruence. Qed.

(** The state [take_trap] leaves when both of its demands hold. *)
Lemma take_trap_returns t noisy p :
  t < NUM_TRAPS -> Z.land (sr p) SR_ET ≠ 0 ->
  exists p',
    take_trap t noisy p = Returns tt p'
    /\ sr p' = sr_after_write (sr_on_trap (sr p))
    /\ cause p' = cause_on_trap (cause p) t
    /\ epc p' = pc p /\ pc p' = evec p
    /\ badvaddr p' = mmu_badvaddr (mmu p)
    /\ count p' = count p /\ compare p' = compare p /\ id p' = id p
    /\ run p' = run p.
Proof.
  intros Ht Het. unfold take_trap, bind, demand, gets, modify, ret.
  rewrite (proj2 (Z.ltb_lt _ _) Ht), (proj2 (truthy_true _) Het).
  destruct noisy; (eexists; split; [reflexivity|done]).
Qed.

(** The previous-supervisor bit takes the supervisor bit. *)
Lemma sr_on_trap_PS sr_ :
  implemented SR_PS ->
  Z.land (sr_after_write (sr_on_trap sr_)) SR_PS
  = (if truthy (Z.land sr_ SR_S) then SR_PS else 0).
Proof.
  intros HPS. rewrite sr_after_write_mask by done. unfold sr_on_trap.
  bitwise n Hn.
  destruct (truthy (Z.land sr_ SR_S)); rewrite ?Z.bits_0;
    by destruct (Z.testbit SR_PS n), (Z.testbit SR_S n),
      (Z.testbit SR_ET n), (Z.testbit sr_ n).
Qed.

(** The supervisor bit is set. *)
Lemma sr_on_trap_S sr_ :
  implemented SR_S -> Z.land SR_S SR_PS = 0 ->
  Z.land (sr_after_write (sr_on_trap sr_)) SR_S = SR_S.
Proof.
  intros HS HSP. rewrite sr_after_write_mask by done. unfold sr_on_trap.
  bitwise n Hn. at_bit HSP n Hn HSPn.
  destruct (truthy (Z.land sr_ SR_S)); rewrite ?Z.bits_0;
    destruct (Z.testbit SR_PS n), (Z.testbit SR_S n),
      (Z.testbit SR_ET n), (Z.testbit sr_ n); simpl in *; congruence.
Qed.

(** Trap-enable is clear. *)
Lemma sr_on_trap_ET sr_ :
  Z.land SR_ET SR_S = 0 -> Z.land SR_ET SR_PS = 0 ->
  Z.land (sr_after_write (sr_on_trap sr_)) SR_ET = 0.
Proof.
  intros HES HEP. apply Z.bits_inj'. intros n Hn.
  rewrite Z.land_spec, Z.bits_0.
  destruct (Z.testbit (sr_after_write _) n) eqn:Hb; [|done].
  apply sr_after_write_bit in Hb; [|done]. revert Hb. unfold sr_on_trap.
  at_bit HES n Hn HESn. at_bit HEP n Hn HEPn.
  repeat first [ rewrite Z.land_spec | rewrite Z.lor_spec
               | rewrite Z.lnot_spec by exact Hn ].
  destruct (truthy (Z.land sr_ SR_S)); rewrite ?Z.bits_0;
    destruct (Z.testbit SR_PS n), (Z.testbit SR_S n),
      (Z.testbit SR_ET n), (Z.testbit sr_ n); simpl in *; congruence.
Qed.

(** The exception-code field holds the trap number. *)
Lemma shift_in_int x : 0 <= x < 2 ^ 31 -> wrap_int x = x.
Proof.
  intros Hx. unfold wrap_int. rewrite Z.mod_small; lia.
Qed.

Lemma cause_on_trap_exccode cause_ t :
  0 <= CAUSE_EXCCODE < 2 ^ 64 -> 0 <= CAUSE_EXCCODE_SHIFT ->
  0 <= Z.shiftl t CAUSE_EXCCODE_SHIFT < 2 ^ 31 ->
  Z.land (Z.shiftl t CAUSE_EXCCODE_SHIFT) CAUSE_EXCCODE
  = Z.shiftl t CAUSE_EXCCODE_SHIFT ->
  Z.shiftr (Z.land (cause_on_trap cause_ t) CAUSE_EXCCODE) CAUSE_EXCCODE_SHIFT
  = t.
Proof.
  intros Hrange Hshift Hint Hfits.
  assert (Z.land (cause_on_trap cause_ t) CAUSE_EXCCODE
          = Z.shiftl t CAUSE_EXCCODE_SHIFT) as ->.
  { unfold cause_on_trap, wrap64. rewrite (shift_in_int _ Hint).
    bitwise n Hn. rewrite testbit_wrap by lia.
    repeat first [ rewrite Z.land_spec | rewrite Z.lor_spec
                 | rewrite Z.lnot_spec by exact Hn ].
    at_bit Hfits n Hn Hfn.
    destruct (Z.ltb_spec n 64) as [Hlt|Hge]; simpl.
    - destruct (Z.testbit CAUSE_EXCCODE n), (Z.testbit cause_ n),
        (Z.testbit (Z.shiftl t CAUSE_EXCCODE_SHIFT) n); simpl in *;
        congruence.
    - assert (Z.testbit CAUSE_EXCCODE n = false) as HE.
      { destruct (Z.eq_dec CAUSE_EXCCODE 0) as [->|Hne]; [apply Z.bits_0|].
        apply Z.bits_above_log2; [lia|].
        assert (Z.log2 CAUSE_EXCCODE < 64); [|lia].
        apply Z.log2_lt_pow2; lia. }
      rewrite HE in *. by rewrite andb_false_r in Hfn. }
  rewrite Z.shiftr_shiftl_l by lia.
  by rewrite Z.sub_diag, Z.shiftl_0_r.
Qed.

(** C2.  With the trap-enable, supervisor and previous-supervisor masks
    implemented and disjoint and an exception-code field that holds every
    legal trap number: a trap [t] below [NUM_TRAPS] whose shift
    [t << CAUSE_EXCCODE_SHIFT] stays within [int], taken while [SR_ET] is
    set, is delivered; afterwards [SR_PS] is set exactly when [SR_S] was set
    before, [SR_S] is set, [SR_ET] is clear, [epc] is the program counter of
    the faulting instruction, the exception code of the cause register is
    [t], and the program counter is [evec]. *)
Theorem take_trap_delivers t noisy p :
  layout_ok ->
  0 <= t < NUM_TRAPS ->
  Z.shiftl t CAUSE_EXCCODE_SHIFT < 2 ^ 31 ->
  Z.land (sr p) SR_ET ≠ 0 ->
  exists p',
    take_trap t noisy p = Returns tt p'
    /\ Z.land (sr p') SR_PS
       = (if truthy (Z.land (sr p) SR_S) then SR_PS else 0)
    /\ Z.land (sr p') SR_S = SR_S
    /\ Z.land (sr p') SR_ET = 0
    /\ epc p' = pc p
    /\ exccode p' = t
    /\ pc p' = evec p.
Proof.
  intros [HS HPS HES HEP HSP Hrange Hshift Hfits] [Ht0 Ht] Hint Het.
  destruct (take_trap_returns t noisy p Ht Het)
    as (p' & Hrun & Hsr & Hcause & Hepc & Hpc & _).
  exists p'. split; [done|]. rewrite Hsr. unfold exccode. rewrite Hcause.
  split; [by apply sr_on_trap_PS|].
  split; [by apply sr_on_trap_S|].
  split; [by apply sr_on_trap_ET|].
  split; [done|].
  split; [|done].
  apply cause_on_trap_exccode; [done..| |by apply Hfits].
  split; [by apply Z.shiftl_nonneg|done].
Qed.

End TrapFacts.

Section AbortFacts.
Context {cfg : Config}.

(** The first demand: a trap number that is not below [NUM_TRAPS]. *)
Lemma take_trap_bad_number t noisy p :
  NUM_TRAPS <= t -> take_trap t noisy p = Aborts (bad_trap_number t).
Proof.
  intros Ht. unfold take_trap, bind, demand.
  by destruct (Z.ltb_spec t NUM_TRAPS); [lia|].
Qed.

(** The second demand: a legal trap while traps are disabled. *)
Lemma take_trap_error_mode t noisy p :
  t < NUM_TRAPS -> Z.land (sr p) SR_ET = 0 ->
  take_trap t noisy p = Aborts (error_mode (id p) t (pc p)).
Proof.
  intros Ht Het. unfold take_trap, bind, demand, gets.
  destruct (Z.ltb_spec t NUM_TRAPS); [|lia].
  by rewrite (proj2 (truthy_false _) Het).
Qed.

(** C8, amended.  A trap that is not below [NUM_TRAPS], or that arrives
    while [SR_ET] is clear, aborts the process and no state is saved or
    redirected.  The diagnostic of a trap number out of range carries the
    number only; the diagnostic of a trap with traps disabled carries the
    core, the trap and the program counter. *)
Theorem take_trap_aborts t noisy p :
  ~ (t < NUM_TRAPS /\ Z.land (sr p) SR_ET ≠ 0) ->
  take_trap t noisy p
  = Aborts (if t <? NUM_TRAPS then error_mode (id p) t (pc p)
            else bad_trap_number t).
Proof.
  intros Hbad. destruct (Z.ltb_spec t NUM_TRAPS) as [Ht|Ht].
  - apply take_trap_error_mode; [done|].
    destruct (Z.eq_dec (Z.land (sr p) SR_ET) 0); tauto.
  - by apply take_trap_bad_number.
Qed.

End AbortFacts.

(** ** Reset *)

Section ResetFacts.
Context {cfg : Config}.

(** C9, amended.  After [reset] the processor is not runnable; the integer
    and floating-point registers, the program counter, the trap vector, the
    other control registers, the counters and the floating-point status are
    zero; every lane pointer is null.  The status register is not cleared: it
    holds what [set_sr] keeps of [SR_S | SR_SX].  The vector configuration
    has its defaults: banks 0xff, 8 banks, lane index -1, maximum vector
    length 32, vector length 0, bank width 256 and 32 registers of each
    kind in use. *)
Theorem reset_state p :
  let q := reset p in
  run q = false
  /\ XPR q = vreplicate NXPR 0 /\ FPR q = vreplicate NFPR 0
  /\ pc q = 0 /\ evec q = 0 /\ epc q = 0 /\ badvaddr q = 0 /\ cause q = 0
  /\ pcr_k0 q = 0 /\ pcr_k1 q = 0 /\ tohost q = 0 /\ fromhost q = 0
  /\ count q = 0 /\ compare q = 0 /\ cycle q = 0
  /\ fsr q = 0
  /\ Forall (fun lane => lane = None) (uts q)
  /\ length (uts q) = Z.to_nat MAX_UTS
  /\ sr q = sr_after_write (Z.lor SR_S SR_SX)
  /\ vecbanks q = 0xff /\ vecbanks_count q = 8 /\ utidx q = -1
  /\ vlmax q = 32 /\ vl q = 0
  /\ nxfpr_bank q = 256 /\ nxpr_use q = 32 /\ nfpr_use q = 32.
Proof.
  cbv zeta. repeat split; try reflexivity.
  - simpl. by apply Forall_replicate.
  - simpl. by rewrite length_replicate.
Qed.

End ResetFacts.

(** ** Vector configuration *)

Section VectorFacts.
Context {cfg : Config}.

Lemma wrap_int_id x : in_int x -> wrap_int x = x.
Proof.
  unfold in_int, INT_MIN, INT_MAX, wrap_int. intros Hx.
  rewrite Z.mod_small; lia.
Qed.

(** Dividing by a positive [int] keeps the quotient within the dividend. *)
Lemma quot_in_int a d : in_int a -> 1 <= d -> in_int (a ÷ d).
Proof.
  unfold in_int, INT_MIN, INT_MAX. intros Ha Hd.
  destruct (Z.le_gt_cases 0 a) as [Hpos|Hneg].
  - pose proof (Z.quot_pos a d Hpos ltac:(lia)).
    pose proof (Z.quot_le_upper_bound a d a ltac:(lia) ltac:(nia)). lia.
  - rewrite <- (Z.opp_involutive a), Z.quot_opp_l by lia.
    pose proof (Z.quot_pos (- a) d ltac:(lia) ltac:(lia)).
    pose proof (Z.quot_le_upper_bound (- a) d (- a) ltac:(lia) ltac:(nia)).
    lia.
Qed.

(** C7.  When the computation of [vcfg] stays within [int]: with
    [u = nxpr_use + nfpr_use], the maximum vector length becomes
    [nxfpr_bank * vecbanks_count] when [u < 2] and
    [(nxfpr_bank / (u - 1)) * vecbanks_count], with the truncating division of
    integers, otherwise, clamped to [MAX_UTS]; and [setvl] with a request
    above the maximum stores the maximum, and for no request a value above
    it. *)
Theorem vcfg_then_setvl p vlapp :
  vcfg_in_range p ->
  let u := nxpr_use p + nfpr_use p in
  vlmax (vcfg p)
  = Z.min (if u <? 2 then nxfpr_bank p * vecbanks_count p
           else (nxfpr_bank p ÷ (u - 1)) * vecbanks_count p) MAX_UTS
  /\ (vlmax (vcfg p) < vlapp -> vl (setvl vlapp (vcfg p)) = vlmax (vcfg p))
  /\ vl (setvl vlapp (vcfg p)) <= vlmax (vcfg p).
Proof.
  intros (Hbank & Hu & Hprod). cbv zeta in *. split; [|split].
  - change (vlmax (vcfg p)) with
      (Z.min (let u := wrap_int (nxpr_use p + nfpr_use p) in
              if u <? 2 then wrap_int (nxfpr_bank p * vecbanks_count p)
              else wrap_int (wrap_int (nxfpr_bank p ÷ wrap_int (u - 1))
                             * vecbanks_count p)) MAX_UTS).
    cbv zeta. rewrite (wrap_int_id _ Hu).
    destruct (Z.ltb_spec (nxpr_use p + nfpr_use p) 2) as [Hlt|Hge].
    + by rewrite wrap_int_id.
    + assert (in_int (nxpr_use p + nfpr_use p - 1)) as Hu1
        by (unfold in_int, INT_MIN, INT_MAX in *; lia).
      rewrite (wrap_int_id _ Hu1).
      rewrite (wrap_int_id (nxfpr_bank p ÷ _)) by (apply quot_in_int; [done|lia]).
      by rewrite wrap_int_id.
  - intros Hlt. change (vl (setvl vlapp (vcfg p)))
      with (Z.min (vlmax (vcfg p)) vlapp). lia.
  - change (vl (setvl vlapp (vcfg p))) with (Z.min (vlmax (vcfg p)) vlapp). lia.
Qed.

(** C10.  [setvl] has no lower bound: a request that is not above the
    maximum vector length, a negative one included, is stored as it is; the
    one clamp it applies is the upper one: a request above the maximum
    stores the maximum, which [setvl] leaves as it is. *)
Theorem setvl_stores_request vlapp p :
  (vlapp <= vlmax p -> vl (setvl vlapp p) = vlapp)
  /\ (vlmax p < vlapp -> vl (setvl vlapp p) = vlmax p)
  /\ vl (setvl vlapp p) = Z.min (vlmax p) vlapp
  /\ vlmax (setvl vlapp p) = vlmax p.
Proof.
  change (vl (setvl vlapp p)) with (Z.min (vlmax p) vlapp).
  change (vlmax (setvl vlapp p)) with (vlmax p).
  repeat split; lia.
Qed.

End VectorFacts.

(** ** The step loop *)

Section StepFacts.
Context {cfg : Config}.
Variable dispatch_arrays : dispatch_state.
Variable insn_func : string -> Z -> Z -> M Z.
Variable load_insn : mmu_t -> Z -> bool -> mmu_t * (Z + Z).

Lemma insn_loop_unfold fuel noisy n i p :
  insn_loop dispatch_arrays insn_func load_insn fuel noisy n i p
  = if i <? n then
      match fuel with
      | O => loop_fuel
      | S fuel' =>
        match execute_insn dispatch_arrays insn_func load_insn noisy p with
        | Returns _ p' =>
          insn_loop dispatch_arrays insn_func load_insn fuel' noisy n
            (wrap64 (i + 1)) p'
        | Throws e p' => loop_throws e i p'
        | Aborts d => loop_aborts d
        end
      end
    else loop_done i p.
Proof. by destruct fuel. Qed.

Lemma insn_loop4_unfold fuel n i p :
  insn_loop4 dispatch_arrays insn_func load_insn fuel n i p
  = if (3 <? n) && (i <? n - 3) then
      match fuel with
      | O => loop_fuel
      | S fuel' =>
        match (let* _ := execute_insn dispatch_arrays insn_func load_insn false in
               let* _ := execute_insn dispatch_arrays insn_func load_insn false in
               let* _ := execute_insn dispatch_arrays insn_func load_insn false in
               execute_insn dispatch_arrays insn_func load_insn false) p with
        | Returns _ p' =>
          insn_loop4 dispatch_arrays insn_func load_insn fuel' n
            (wrap64 (i + 4)) p'
        | Throws e p' => loop_throws e i p'
        | Aborts d => loop_aborts d
        end
      end
    else loop_done i p.
Proof. by destruct fuel. Qed.

(** C6.  An instruction that retires, that is an [execute_insn] of the step
    loop that returns, leaves integer register 0 at zero, whatever its
    handler wrote there; so each of the two loops of [step], when it ends
    after at least one turn, ends with register 0 at zero. *)
Theorem retired_insn_zeroes_x0 :
  (forall noisy p p',
     execute_insn dispatch_arrays insn_func load_insn noisy p = Returns tt p' ->
     XPR p' !!! 0%fin = 0)
  /\ (forall fuel noisy n i p i' p',
        insn_loop dispatch_arrays insn_func load_insn fuel noisy n i p
        = loop_done i' p' ->
        i < n -> XPR p' !!! 0%fin = 0)
  /\ (forall fuel n i p i' p',
        insn_loop4 dispatch_arrays insn_func load_insn fuel n i p
        = loop_done i' p' ->
        3 < n -> i < n - 3 -> XPR p' !!! 0%fin = 0).
Proof.
  assert (forall noisy p p',
            execute_insn dispatch_arrays insn_func load_insn noisy p
            = Returns tt p' ->
            XPR p' !!! 0%fin = 0) as Hretire.
  { intros noisy p p'. unfold execute_insn, disasm, bind, modify, ret.
    destruct (load_insn _ _ _) as [m [insn|t]]; [|done].
    destruct noisy; cbv beta iota;
      (destruct (call_slot _ _ _ _ _) as [next q|e q|d]; [|done|done]);
      intros [= <-]; exact (vlookup_insert 0%fin 0 (XPR (with_pc next q))). }
  split; [exact Hretire|]. split.
  - induction fuel as [|fuel IH]; intros noisy n i p i' p';
      rewrite insn_loop_unfold; intros Hdone Hlt;
      destruct (Z.ltb_spec i n); try lia; [done|].
    destruct (execute_insn _ _ _ noisy p) as [[] p1|e p1|d] eqn:Hexec;
      [|done|done].
    destruct (Z.lt_ge_cases (wrap64 (i + 1)) n) as [Hmore|Hlast].
    + by apply (IH _ _ _ _ _ _ Hdone).
    + rewrite insn_loop_unfold in Hdone.
      destruct (Z.ltb_spec (wrap64 (i + 1)) n); [lia|].
      injection Hdone as _ <-. by apply (Hretire noisy p).
  - induction fuel as [|fuel IH]; intros n i p i' p';
      rewrite insn_loop4_unfold; intros Hdone Hn Hlt;
      destruct (Z.ltb_spec 3 n); try lia;
      destruct (Z.ltb_spec i (n - 3)); try lia; simpl in Hdone; [done|].
    unfold bind in Hdone.
    destruct (execute_insn _ _ _ false p) as [[] p1|e p1|d]; [|done|done].
    destruct (execute_insn _ _ _ false p1) as [[] p2|e p2|d]; [|done|done].
    destruct (execute_insn _ _ _ false p2) as [[] p3|e p3|d]; [|done|done].
    destruct (execute_insn _ _ _ false p3) as [[] p4|e p4|d] eqn:Hexec;
      [|done|done].
    destruct (Z.lt_ge_cases (wrap64 (i + 4)) (n - 3)) as [Hmore|Hlast].
    + by apply (IH _ _ _ _ _ Hdone).
    + rewrite insn_loop4_unfold in Hdone.
      destruct (Z.ltb_spec 3 n); [|lia].
      destruct (Z.ltb_spec (wrap64 (i + 4)) (n - 3)); [lia|].
      simpl in Hdone. injection Hdone as _ <-. by apply (Hretire false p3).
Qed.

Lemma advance_counters_cause i p :
  cause (advance_counters i p)
  = if (count p <? compare p)
       && ((wrap count_bits (count p + i) >=? compare p)
           || (count p >? wrap64 (count_max - i)))
    then wrap64 (Z.lor (cause p) (ip_bit TIMER_IRQ))
    else cause p.
Proof.
  unfold advance_counters. cbn [count compare with_cycle with_count].
  by destruct (_ && _).
Qed.

(** The test of [step] says: the counter was below the threshold and the
    batch takes it to the threshold or past it, wrapped or not. *)
Lemma timer_condition i p :
  counters_ok p -> 0 <= i <= count_max ->
  (count p <? compare p)
  && ((wrap count_bits (count p + i) >=? compare p)
      || (count p >? wrap64 (count_max - i)))
  = (count p <? compare p) && (compare p <=? count p + i).
Proof.
  unfold counters_ok, count_max, wrap64, wrap.
  intros (Hbits & Hcount & Hcompare) Hi.
  assert (2 ^ count_bits <= 2 ^ 64) by (apply Z.pow_le_mono_r; lia).
  rewrite (Z.mod_small (2 ^ count_bits - 1 - i)) by lia.
  destruct (Z.ltb_spec (count p) (compare p)); [simpl|done].
  destruct (Z.lt_ge_cases (count p + i) (2 ^ count_bits)) as [Hno|Hwrap].
  - rewrite Z.mod_small by lia.
    destruct (Z.leb_spec (compare p) (count p + i)),
      (Z.geb_spec (count p + i) (compare p)),
      (Z.gtb_spec (count p) (2 ^ count_bits - 1 - i)); simpl; lia.
  - destruct (Z.leb_spec (compare p) (count p + i)),
      (Z.gtb_spec (count p) (2 ^ count_bits - 1 - i)); simpl;
      rewrite ?orb_true_r; lia.
Qed.

Lemma reaches_compare_from_below i p :
  counters_ok p -> count p < compare p ->
  reaches_compare p i <-> compare p <= count p + i.
Proof.
  unfold counters_ok, reaches_compare, wrap.
  intros (Hbits & Hcount & Hcompare) Hlt. split.
  - intros (k & Hk & Hreach).
    destruct (Z.lt_ge_cases (count p + k) (compare p)); [|lia].
    rewrite Z.mod_small in Hreach by lia. lia.
  - intros Hle. exists (compare p - count p). split; [lia|].
    replace (count p + (compare p - count p)) with (compare p) by lia.
    apply Z.mod_small. lia.
Qed.

Lemma timer_bit_set c :
  0 <= timer_bit < 31 ->
  Z.testbit (wrap64 (Z.lor c (ip_bit TIMER_IRQ))) timer_bit = true.
Proof.
  intros Hk. unfold wrap64, ip_bit. fold timer_bit.
  rewrite testbit_wrap, Z.lor_spec, Z.shiftl_spec, Z.sub_diag by lia.
  destruct (Z.ltb_spec timer_bit 64); [|lia].
  by rewrite orb_true_r.
Qed.

(** Delivering a trap rewrites the exception code of the cause register and
    leaves the timer's pending bit as it is, when the bit lies outside of the
    exception-code field. *)
Lemma take_trap_keeps_timer t noisy p p' :
  0 <= timer_bit < 31 ->
  Z.testbit CAUSE_EXCCODE timer_bit = false ->
  take_trap t noisy p = Returns tt p' ->
  timer_pending p = true -> timer_pending p' = true.
Proof.
  intros Hbit Hfield Hrun Hset.
  unfold take_trap, bind, demand, gets, modify, ret in Hrun.
  destruct (t <? NUM_TRAPS); [|done].
  destruct (truthy (Z.land (sr p) SR_ET)); [|done].
  unfold timer_pending in *.
  assert (cause p' = cause_on_trap (cause p) t) as ->
    by (destruct noisy; by injection Hrun as <-).
  unfold cause_on_trap, wrap64. rewrite testbit_wrap, Z.lor_spec, Z.land_spec, Z.lnot_spec by lia.
  rewrite Hset, Hfield. destruct (Z.ltb_spec timer_bit 64); [done|lia].
Qed.

(** What the counter update does to the timer's pending bit, for a counter
    and a threshold within [typeof(count)] and a batch of [i] counted
    instructions, [i] at most the largest counter value: a pending bit that
    is set stays set through the counter update and through the delivery of
    a trap; when the counter is strictly below [compare], the bit is set
    after the batch exactly when it was set before or the counter reaches
    [compare] at one of the [i] increments, the sum wrapping or not; when
    the counter is at [compare] or above, the bit is as it was, whether the
    sum wraps or not. *)
Lemma timer_pending_after_batch i p :
  counters_ok p ->
  0 <= timer_bit < 31 ->
  0 <= i <= count_max ->
  (timer_pending p = true -> timer_pending (advance_counters i p) = true)
  /\ (Z.testbit CAUSE_EXCCODE timer_bit = false ->
      forall t noisy p', take_trap t noisy p = Returns tt p' ->
      timer_pending p = true -> timer_pending p' = true)
  /\ (count p < compare p ->
      (timer_pending (advance_counters i p) = true
       <-> timer_pending p = true \/ reaches_compare p i))
  /\ (compare p <= count p ->
      timer_pending (advance_counters i p) = timer_pending p).
Proof.
  intros Hok Hbit Hi.
  assert (timer_pending (advance_counters i p)
          = timer_pending p
            || (count p <? compare p) && (compare p <=? count p + i)) as Heq.
  { unfold timer_pending.
    rewrite advance_counters_cause, timer_condition by done.
    destruct (_ && _); [|by rewrite orb_false_r].
    by rewrite timer_bit_set, orb_true_r. }
  rewrite Heq. split; [|split; [|split]].
  - by intros ->.
  - intros Hfield t noisy p'. by apply take_trap_keeps_timer.
  - intros Hlt. rewrite (reaches_compare_from_below i p Hok Hlt).
    destruct (Z.ltb_spec (count p) (compare p)); [|lia].
    destruct (Z.leb_spec (compare p) (count p + i)),
      (timer_pending p); simpl; intuition (done || lia).
  - intros Hge. destruct (Z.ltb_spec (count p) (compare p)); [lia|].
    by rewrite orb_false_r.
Qed.

(** C3.  The counter update misses a crossing.  A counter at its largest
    value, with the threshold at 5 and the pending bit clear, wraps in a
    batch of ten instructions and reaches the threshold at the sixth
    increment; the test of [step] looks for the wrap-around only when the
    counter starts below the threshold, and the pending bit stays clear. *)
Theorem timer_misses_wrapped_crossing p :
  counters_ok p ->
  count p = count_max -> compare p = 5 -> timer_pending p = false ->
  reaches_compare p 10
  /\ timer_pending (advance_counters 10 p) = false.
Proof.
  intros (Hbits & Hcount & Hcompare) Hmax H5 Hclear.
  assert (2 ^ 32 <= 2 ^ count_bits) as Hwide
    by (apply Z.pow_le_mono_r; lia).
  split.
  - exists 6. split; [lia|]. rewrite Hmax, H5. unfold count_max, wrap.
    replace (2 ^ count_bits - 1 + 6) with (5 + 1 * 2 ^ count_bits) by lia.
    rewrite Z.mod_add by lia. apply Z.mod_small. lia.
  - unfold timer_pending in *. rewrite advance_counters_cause.
    destruct (Z.ltb_spec (count p) (compare p)) as [Hlt|Hge]; [|done].
    unfold count_max in Hmax. lia.
Qed.

(** A second crossing that the same test misses: a counter narrower than
    [size_t] at 0, the threshold at 5 and a batch of as many instructions
    as the counter has values.  The counter passes the threshold and ends
    at 0; [max_count - i] wraps in [size_t], and the bit stays clear. *)
Lemma timer_misses_oversized_batch p :
  counters_ok p -> count_bits < 64 ->
  count p = 0 -> compare p = 5 -> timer_pending p = false ->
  reaches_compare p (2 ^ count_bits)
  /\ timer_pending (advance_counters (2 ^ count_bits) p) = false.
Proof.
  intros (Hbits & Hcount & Hcompare) Hnarrow H0 H5 Hclear.
  assert (2 ^ 32 <= 2 ^ count_bits) as Hwide
    by (apply Z.pow_le_mono_r; lia).
  assert (2 ^ count_bits < 2 ^ 64) as Hsize
    by (apply Z.pow_lt_mono_r; lia).
  split.
  - exists 5. split; [lia|]. rewrite H0, H5. unfold wrap.
    apply Z.mod_small. lia.
  - unfold timer_pending in *. rewrite advance_counters_cause, H0, H5.
    unfold wrap, wrap64, count_max.
    replace (0 + 2 ^ count_bits) with (0 + 1 * 2 ^ count_bits) by lia.
    rewrite Z.mod_add, Z.mod_0_l by lia.
    replace (2 ^ count_bits - 1 - 2 ^ count_bits) with (-1) by lia.
    by change (0 >? (-1) mod 2 ^ 64) with false.
Qed.

End StepFacts.

(** ** The scenario: faults from all-zero memory *)

Section ScenarioFacts.
Context {cfg : Config}.

Lemma initialized_table_length opcodes :
  length (dispatch_table (initialize_dispatch_table opcodes static_dispatch))
  = table_len.
Proof.
  unfold initialize_dispatch_table, static_dispatch. simpl.
  destruct (replicate table_len None !! 0%nat) as [[f|]|] eqn:Hz; simpl.
  - apply lookup_replicate in Hz. by destruct Hz.
  - by rewrite length_fmap, length_imap, length_replicate.
  - by rewrite length_fmap, length_imap, length_replicate.
Qed.

(** With no line in [opcodes.h] every slot falls back to [dispatch], whose
    scan finds nothing. *)
Lemma table_select_no_opcodes bits :
  table_select (arrays_of cfg no_opcodes) bits = Some IllegalInstruction
  \/ table_select (arrays_of cfg no_opcodes) bits = None.
Proof.
  unfold table_select, arrays_of.
  destruct (decide (slot_of bits < table_len)%nat) as [Hin|Hout].
  - left. rewrite initialized_table by done. simpl.
    unfold dispatch_select. by rewrite initialized_chain.
  - right. rewrite lookup_ge_None_2; [done|].
    rewrite initialized_table_length. lia.
Qed.

Lemma call_slot_no_opcodes handlers insn pc_ p :
  call_slot (arrays_of cfg no_opcodes) handlers insn pc_ p
  = Throws (throw_trap trap_illegal_instruction) p.
Proof.
  unfold call_slot.
  by destruct (table_select_no_opcodes insn) as [-> | ->].
Qed.

Lemma with_mmu_same p : with_mmu (mmu p) p = p.
Proof. by destruct p. Qed.

Lemma execute_insn_zero_memory handlers p :
  execute_insn (arrays_of cfg no_opcodes) handlers zero_memory false p
  = Throws (throw_trap trap_illegal_instruction) p.
Proof.
  unfold execute_insn, zero_memory, bind, ret. cbv beta iota.
  by rewrite call_slot_no_opcodes, with_mmu_same.
Qed.

(** One turn of the [try] block when no interrupt is taken and the batch
    is not over: the first instruction faults and [i] is as it was. *)
Lemma try_block_faults handlers fuel i p :
  take_interrupt p = Returns tt p -> i < 2 ->
  try_block (arrays_of cfg no_opcodes) handlers zero_memory (S fuel) false 5 i p
  = loop_throws (throw_trap trap_illegal_instruction) i p.
Proof.
  intros Hint Hi. unfold try_block. rewrite Hint. cbn [insn_loop4].
  change (5 - 3) with 2. change (3 <? 5) with true.
  destruct (Z.ltb_spec i 2); [|lia].
  unfold bind. by rewrite execute_insn_zero_memory.
Qed.

Lemma no_interrupt_when_disabled p :
  Z.land (sr p) SR_ET = 0 -> take_interrupt p = Returns tt p.
Proof.
  intros Het. unfold take_interrupt. rewrite Het.
  change (truthy 0) with false. by rewrite andb_false_r.
Qed.

Lemma no_interrupt_when_none_pending p :
  cause p = 0 -> take_interrupt p = Returns tt p.
Proof.
  intros Hc. unfold take_interrupt. rewrite Hc.
  change (Z.land 0 CAUSE_IP) with 0. by rewrite Z.shiftr_0_l.
Qed.

Lemma scenario_trap_enabled :
  implemented SR_ET -> SR_ET ≠ 0 ->
  Z.land (sr (scenario_started cfg)) SR_ET ≠ 0.
Proof.
  intros Himpl Hne.
  change (sr (scenario_started cfg)) with (sr_after_write (Z.lor SR_S SR_ET)).
  rewrite sr_after_write_mask by done.
  assert (Z.land (Z.lor SR_S SR_ET) SR_ET = SR_ET) as ->; [|done].
  bitwise n Hn. by destruct (Z.testbit SR_S n), (Z.testbit SR_ET n).
Qed.

(** With the threshold at 0 no batch sets the timer's pending bit: the
    counter is never below it. *)
Lemma timer_never_fires_at_zero i p :
  compare p = 0 -> 0 <= count p ->
  cause (advance_counters i p) = cause p.
Proof.
  intros Hc Hcount. rewrite advance_counters_cause, Hc.
  by destruct (Z.ltb_spec (count p) 0); [lia|].
Qed.

(** C4, amended.  In the scenario, once the processor is made runnable: the
    first instruction raises the illegal-instruction trap; its delivery sets
    [epc] to the initial program counter 0 and the program counter to 0x100,
    and clears [SR_ET]; the instruction at 0x100 faults in turn, with traps
    disabled, so the batch ends in the abort of [take_trap] (error mode, with
    the core, the trap and the program counter 0x100) and not in the counter
    update; and with [compare] at 0 the counter update of no batch sets the
    timer's pending bit. *)
Theorem scenario_faults_then_error_mode :
  layout_ok -> implemented SR_ET -> SR_ET ≠ 0 ->
  0 <= trap_illegal_instruction < NUM_TRAPS ->
  let start := scenario_started cfg in
  execute_insn (arrays_of cfg no_opcodes) fallthrough zero_memory false start
  = Throws (throw_trap trap_illegal_instruction) start
  /\ (exists p1,
       take_trap trap_illegal_instruction false start = Returns tt p1
       /\ pc start = 0 /\ epc p1 = 0 /\ pc p1 = 0x100
       /\ Z.land (sr p1) SR_ET = 0)
  /\ scenario_step cfg start
     = step_aborts (error_mode (id start) trap_illegal_instruction 0x100)
  /\ (forall i p, compare p = 0 -> 0 <= count p ->
        timer_pending (advance_counters i p) = timer_pending p).
Proof.
  intros Hlayout Himpl Hne Hill start.
  pose proof (scenario_trap_enabled Himpl Hne) as Het. fold start in Het.
  destruct Hlayout as [_ _ HES HEP _ _ _ _].
  destruct (take_trap_returns trap_illegal_instruction false start
              (proj2 Hill) Het)
    as (p1 & Htrap & Hsr & _ & Hepc & Hpc & _ & _ & _ & Hid & _).
  assert (Z.land (sr p1) SR_ET = 0) as Hoff
    by (rewrite Hsr; by apply sr_on_trap_ET).
  split; [apply execute_insn_zero_memory|].
  split; [by exists p1|].
  split.
  - unfold scenario_step, step.
    change (run start) with true. cbn [negb].
    change 10%nat with (S (S 8)). cbn [step_loop].
    rewrite try_block_faults by (done || by apply no_interrupt_when_none_pending).
    change (wrap64 (0 + 1)) with 1. rewrite Htrap.
    rewrite try_block_faults by (lia || by apply no_interrupt_when_disabled).
    rewrite take_trap_error_mode by (done || lia).
    by rewrite Hid, Hpc.
  - intros i p Hc Hcount. unfold timer_pending.
    by rewrite timer_never_fires_at_zero.
Qed.

End ScenarioFacts.

(** * Further properties of the code *)

(** ** The dispatch arrays *)

Section DispatchMore.
Context {cfg : Config}.

Lemma first_slot_in_table : 0 < DISPATCH_TABLE_SIZE -> (0 < table_len)%nat.
Proof. unfold table_len. lia. Qed.

Lemma slot_in_positive_table bits :
  0 < DISPATCH_TABLE_SIZE -> (slot_of bits < table_len)%nat.
Proof.
  intros Hs. unfold slot_of, table_len.
  pose proof (Z.mod_pos_bound bits DISPATCH_TABLE_SIZE Hs). lia.
Qed.

Lemma initialized_chain_length opcodes :
  length (dispatch_chain (initialize_dispatch_table opcodes static_dispatch))
  = table_len.
Proof.
  unfold initialize_dispatch_table, static_dispatch. simpl.
  destruct (replicate table_len None !! 0%nat) as [[f|]|] eqn:Hz; simpl;
    by rewrite ?length_imap, length_replicate.
Qed.

Lemma initialized_guard opcodes :
  0 < DISPATCH_TABLE_SIZE ->
  exists f,
    dispatch_table (initialize_dispatch_table opcodes static_dispatch) !! 0%nat
    = Some (Some f).
Proof.
  intros Hs. rewrite initialized_table by by apply first_slot_in_table.
  destruct (bind_slot_not_null (flat_map (DECLARE_INSN 0 []) opcodes))
    as [f ->]. by exists f.
Qed.

(** X1.  [initialize_dispatch_table] builds the arrays once: after the
    first call on the static arrays, any number of further calls, with any
    opcode table, return at the guard on [dispatch_table[0]] and leave both
    arrays as they are. *)
Theorem initialize_dispatch_table_once opcodes opcodes' (n : nat) :
  0 < DISPATCH_TABLE_SIZE ->
  Nat.iter n (initialize_dispatch_table opcodes')
    (initialize_dispatch_table opcodes static_dispatch)
  = initialize_dispatch_table opcodes static_dispatch.
Proof.
  intros Hs. induction n as [|n IH]; [done|].
  simpl. rewrite IH. unfold initialize_dispatch_table at 1.
  by destruct (initialized_guard opcodes Hs) as [f ->].
Qed.

(** X2.  After [initialize_dispatch_table] both arrays have
    [DISPATCH_TABLE_SIZE] entries and no slot of [dispatch_table] is null:
    the call through the slot of any instruction word is defined. *)
Theorem initialized_table_total opcodes bits :
  0 < DISPATCH_TABLE_SIZE ->
  let arrays := initialize_dispatch_table opcodes static_dispatch in
  length (dispatch_table arrays) = Z.to_nat DISPATCH_TABLE_SIZE
  /\ length (dispatch_chain arrays) = Z.to_nat DISPATCH_TABLE_SIZE
  /\ (exists f, dispatch_table arrays !! slot_of bits = Some (Some f))
  /\ is_Some (table_select arrays bits).
Proof.
  intros Hs arrays. pose proof (slot_in_positive_table bits Hs) as Hslot.
  assert (exists f, dispatch_table arrays !! slot_of bits = Some (Some f))
    as [f Hf].
  { unfold arrays. rewrite initialized_table by done.
    destruct (bind_slot_not_null
                (flat_map (DECLARE_INSN (slot_of bits) []) opcodes))
      as [f ->]. by exists f. }
  split; [apply initialized_table_length|].
  split; [apply initialized_chain_length|].
  split; [by exists f|]. unfold table_select. rewrite Hf. by destruct f.
Qed.

Lemma DECLARE_INSN_elem (i : nat) c e :
  c ∈ DECLARE_INSN i [] e ->
  e = (func c, opcode c, mask c)
  /\ Z.land (Z.of_nat i) (mask c)
     = Z.land (Z.land (opcode c) (mask c)) (DISPATCH_TABLE_SIZE - 1).
Proof.
  destruct e as [[name opc] msk]. unfold DECLARE_INSN.
  destruct (Z.eqb_spec (Z.land (Z.of_nat i) msk)
              (Z.land (Z.land opc msk) (DISPATCH_TABLE_SIZE - 1)))
    as [Hc|Hc]; simpl.
  - intros ->%list_elem_of_singleton. by simpl.
  - by intros ?%not_elem_of_nil.
Qed.

Lemma chain_elem (i : nat) c opcodes :
  c ∈ flat_map (DECLARE_INSN i []) opcodes ->
  (func c, opcode c, mask c) ∈ opcodes
  /\ Z.land (Z.of_nat i) (mask c)
     = Z.land (Z.land (opcode c) (mask c)) (DISPATCH_TABLE_SIZE - 1).
Proof.
  rewrite list_elem_of_In, in_flat_map. intros (e & He & Hc).
  apply list_elem_of_In in Hc. apply DECLARE_INSN_elem in Hc as [-> Hcand].
  split; [by apply list_elem_of_In|done].
Qed.

Lemma scan_chain_selected bits chain name :
  scan_chain bits chain = Selected name ->
  exists c, c ∈ chain /\ func c = name /\ Z.land bits (mask c) = opcode c.
Proof.
  induction chain as [|c rest IH]; simpl; [done|].
  destruct (Z.eqb_spec (Z.land bits (mask c)) (opcode c)) as [Hm|Hm].
  - intros [= <-]. exists c. split; [left|done].
  - intros (c' & Hin & Hc')%IH. exists c'. split; [by right|done].
Qed.

(** X3.  A handler that the initialised table runs for a word comes from a
    line of [opcodes.h] whose pattern agrees with the word on the bits that
    index the table; when the word's slot does not have exactly one
    candidate, the word matches that line in full. *)
Theorem table_select_sound opcodes bits name :
  table_select (initialize_dispatch_table opcodes static_dispatch) bits
  = Some (Selected name) ->
  exists opc msk,
    (name, opc, msk) ∈ opcodes
    /\ Z.land (Z.of_nat (slot_of bits)) msk
       = Z.land (Z.land opc msk) (DISPATCH_TABLE_SIZE - 1)
    /\ (length (candidates opcodes bits) ≠ 1%nat -> Z.land bits msk = opc).
Proof.
  unfold table_select, candidates.
  destruct (dispatch_table _ !! slot_of bits) as [slot|] eqn:Hslot; [|done].
  assert (slot_of bits < table_len)%nat as Hlt
    by (apply lookup_lt_Some in Hslot;
        by rewrite initialized_table_length in Hslot).
  rewrite initialized_table in Hslot by done. injection Hslot as <-.
  rewrite initialized_chain by done. simpl. unfold bind_slot, dispatch_select.
  rewrite initialized_chain by done. simpl.
  destruct (flat_map (DECLARE_INSN (slot_of bits) []) opcodes)
    as [|c [|c' rest]] eqn:Hchain; simpl.
  - done.
  - intros [= <-].
    destruct (chain_elem (slot_of bits) c opcodes) as [Hin Hcand];
      [rewrite Hchain; by left|].
    exists (opcode c), (mask c). by repeat split.
  - intros [= Hscan].
    destruct (scan_chain_selected bits (c :: c' :: rest) name Hscan)
      as (d & Hd & <- & Hfull).
    destruct (chain_elem (slot_of bits) d opcodes) as [Hin Hcand];
      [by rewrite Hchain|].
    exists (opcode d), (mask d). by repeat split.
Qed.

End DispatchMore.

(** ** Status writes *)

Section StatusMore.
Context {cfg : Config}.

Lemma bits_above_width m w n :
  0 <= m < 2 ^ w -> w <= n -> Z.testbit m n = false.
Proof.
  intros Hm Hn. destruct (Z.eq_dec m 0) as [->|Hne]; [apply Z.bits_0|].
  apply Z.bits_above_log2; [lia|].
  assert (Z.log2 m < w); [|lia]. apply Z.log2_lt_pow2; lia.
Qed.

Lemma in_width w x : 0 <= w -> Z.land x (Z.ones w) = x -> 0 <= x < 2 ^ w.
Proof.
  intros Hw Hx. rewrite Z.land_ones in Hx by done. rewrite <- Hx.
  apply Z.mod_pos_bound. by apply Z.pow_pos_nonneg.
Qed.

Lemma sr_after_write_range val : 0 <= sr_after_write val < 2 ^ 32.
Proof.
  apply in_width; [done|]. rewrite sr_after_write_implemented.
  unfold wrap32. bitwise n Hn. rewrite testbit_wrap, Z.testbit_ones by lia.
  destruct (Z.leb_spec 0 n); [|lia].
  by destruct (n <? 32), (Z.testbit val n), (Z.testbit implemented_bits n).
Qed.

Lemma sr_after_write_again val :
  sr_after_write (sr_after_write val) = sr_after_write val.
Proof.
  rewrite (sr_after_write_implemented (sr_after_write val)).
  rewrite (sr_after_write_implemented val). unfold wrap32.
  bitwise n Hn. rewrite !testbit_wrap, Z.land_spec, testbit_wrap by lia.
  by destruct (n <? 32), (Z.testbit val n), (Z.testbit implemented_bits n).
Qed.

Lemma narrow_sr_after_write val :
  RISCV_ENABLE_64BIT = false ->
  Z.land (sr_after_write val) SR_SX = 0
  /\ Z.land (sr_after_write val) SR_UX = 0.
Proof.
  intros H64. unfold sr_after_write. rewrite H64.
  destruct RISCV_ENABLE_FPU, RISCV_ENABLE_RVC, RISCV_ENABLE_VEC;
    cbv beta iota zeta; split; bitwise n Hn;
    repeat match goal with
           | |- context [Z.testbit ?x ?k] => destruct (Z.testbit x k); simpl
           end; done.
Qed.

Lemma narrow_set_sr val p :
  RISCV_ENABLE_64BIT = false -> xprlen (set_sr val p) = 32.
Proof.
  intros H64. destruct (narrow_sr_after_write val H64) as [HSX HUX].
  change (xprlen (set_sr val p)) with
    (if truthy (if truthy (Z.land (sr_after_write val) SR_S)
                then Z.land (sr_after_write val) SR_SX
                else Z.land (sr_after_write val) SR_UX)
     then 64 else 32).
  rewrite HSX, HUX. by destruct (truthy (Z.land _ SR_S)).
Qed.

(** X4.  In a build without [RISCV_ENABLE_64BIT] the register width
    [xprlen] is 32 after every status write, whatever is written: after
    [set_sr], after [reset] (whose [SR_SX] is ignored) and after a delivered
    trap. *)
Theorem narrow_build_xprlen :
  RISCV_ENABLE_64BIT = false ->
  (forall val p, xprlen (set_sr val p) = 32)
  /\ (forall p, xprlen (reset p) = 32)
  /\ (forall t noisy p p',
        take_trap t noisy p = Returns tt p' -> xprlen p' = 32).
Proof.
  intros H64. split; [intros; by apply narrow_set_sr|]. split.
  - intros p. unfold reset. cbn [xprlen set_fsr with_fsr].
    by apply narrow_set_sr.
  - intros t noisy p p'. unfold take_trap, bind, demand, gets, modify, ret.
    destruct (t <? NUM_TRAPS); [|done].
    destruct (truthy (Z.land (sr p) SR_ET)); [|done].
    destruct noisy; intros [= <-];
      cbn [xprlen with_badvaddr with_pc with_epc with_cause];
      by apply narrow_set_sr.
Qed.

(** X5.  The status register always fits its 32 bits after a write, and
    writing back the value read changes neither the register, nor the
    register width, nor the two modes told to the memory subsystem; the
    translation cache is flushed again all the same, once by each write. *)
Theorem set_sr_write_back val p :
  let q := set_sr val p in
  let r := set_sr (sr q) q in
  0 <= sr q < 2 ^ 32
  /\ sr r = sr q /\ xprlen r = xprlen q
  /\ vm_enabled (mmu r) = vm_enabled (mmu q)
  /\ supervisor (mmu r) = supervisor (mmu q)
  /\ tlb_flushes (mmu q) = S (tlb_flushes (mmu p))
  /\ tlb_flushes (mmu r) = S (S (tlb_flushes (mmu p))).
Proof.
  cbv zeta. split; [apply sr_after_write_range|].
  unfold set_sr.
  cbn [sr xprlen mmu vm_enabled supervisor tlb_flushes with_xprlen with_mmu
       with_sr].
  by rewrite !sr_after_write_again.
Qed.

(** X6.  After every [set_fsr] the reserved bits ([FSR_ZERO]) of the
    floating-point status are zero and the register fits its 32 bits; the
    bits of a mask within 32 bits and outside of [FSR_ZERO] are stored as
    written; and writing back the value read changes nothing. *)
Theorem set_fsr_masks_reserved val p m :
  0 <= m < 2 ^ 32 -> Z.land m FSR_ZERO = 0 ->
  let q := set_fsr val p in
  Z.land (fsr q) FSR_ZERO = 0
  /\ 0 <= fsr q < 2 ^ 32
  /\ Z.land (fsr q) m = Z.land val m
  /\ set_fsr (fsr q) q = q.
Proof.
  intros Hm Hdisjoint. cbv zeta.
  change (fsr (set_fsr val p)) with (Z.land (wrap32 val) (Z.lnot FSR_ZERO)).
  unfold wrap32.
  assert (0 <= Z.land (wrap 32 val) (Z.lnot FSR_ZERO) < 2 ^ 32) as Hrange.
  { apply in_width; [done|]. bitwise n Hn.
    rewrite testbit_wrap, Z.testbit_ones by lia.
    destruct (Z.leb_spec 0 n); [|lia].
    by destruct (n <? 32), (Z.testbit val n), (Z.testbit FSR_ZERO n). }
  split; [|split; [done|split]].
  - bitwise n Hn. rewrite testbit_wrap by lia.
    by destruct (n <? 32), (Z.testbit val n), (Z.testbit FSR_ZERO n).
  - bitwise n Hn. rewrite testbit_wrap by lia. at_bit Hdisjoint n Hn Hd.
    destruct (Z.ltb_spec n 32).
    + destruct (Z.testbit val n), (Z.testbit FSR_ZERO n), (Z.testbit m n);
        simpl in *; congruence.
    + rewrite (bits_above_width m 32 n) by (done || lia).
      by rewrite !andb_false_r.
  - unfold set_fsr.
    change (fsr (with_fsr ?x p)) with x.
    change (with_fsr ?x (with_fsr ?y p)) with (with_fsr x p).
    f_equal. unfold wrap32. bitwise n Hn. rewrite !testbit_wrap by lia.
    repeat first [ rewrite Z.land_spec | rewrite Z.lnot_spec by exact Hn ].
    rewrite testbit_wrap by lia.
    by destruct (n <? 32), (Z.testbit val n), (Z.testbit FSR_ZERO n).
Qed.

End StatusMore.

(** ** The vector configuration *)

Section VectorMore.
Context {cfg : Config}.

(** X7.  Whatever the configuration holds, also where the arithmetic of
    [vcfg] wraps: after [vcfg] the maximum vector length is at most the
    capacity [MAX_UTS] of the lane array, and a vector length set after it
    is at most the request, the maximum and the capacity. *)
Theorem vcfg_within_capacity p vlapp :
  vlmax (vcfg p) <= MAX_UTS
  /\ vl (setvl vlapp (vcfg p)) <= vlapp
  /\ vl (setvl vlapp (vcfg p)) <= vlmax (vcfg p)
  /\ vl (setvl vlapp (vcfg p)) <= MAX_UTS.
Proof.
  change (vl (setvl vlapp (vcfg p))) with (Z.min (vlmax (vcfg p)) vlapp).
  assert (vlmax (vcfg p) <= MAX_UTS); [|lia].
  unfold vcfg. cbn [vlmax with_vlmax]. lia.
Qed.

Lemma vcfg_vlmax p :
  vcfg_in_range p ->
  vlmax (vcfg p)
  = Z.min (if nxpr_use p + nfpr_use p <? 2
           then nxfpr_bank p * vecbanks_count p
           else (nxfpr_bank p ÷ (nxpr_use p + nfpr_use p - 1))
                * vecbanks_count p) MAX_UTS.
Proof.
  intros (Hbank & Hu & Hprod). cbv zeta in *.
  unfold vcfg. cbn [vlmax with_vlmax]. rewrite (wrap_int_id _ Hu).
  destruct (Z.ltb_spec (nxpr_use p + nfpr_use p) 2) as [Hlt|Hge].
  - by rewrite wrap_int_id.
  - assert (in_int (nxpr_use p + nfpr_use p - 1)) as Hu1
      by (unfold in_int, INT_MIN, INT_MAX in *; lia).
    rewrite (wrap_int_id _ Hu1).
    rewrite (wrap_int_id (nxfpr_bank p ÷ _)) by (apply quot_in_int; [done|lia]).
    by rewrite wrap_int_id.
Qed.

(** X8.  Registers cost lanes: of two configurations with the same
    non-negative bank width and bank count, both computed within [int], the
    one that uses at least as many registers gets a maximum vector length
    that is no larger. *)
Theorem vcfg_antitone p p' :
  vcfg_in_range p -> vcfg_in_range p' ->
  nxfpr_bank p' = nxfpr_bank p -> vecbanks_count p' = vecbanks_count p ->
  0 <= nxfpr_bank p -> 0 <= vecbanks_count p ->
  nxpr_use p + nfpr_use p <= nxpr_use p' + nfpr_use p' ->
  vlmax (vcfg p') <= vlmax (vcfg p).
Proof.
  intros Hp Hp' Hbank Hcount Hb Hc Hle.
  rewrite (vcfg_vlmax p Hp), (vcfg_vlmax p' Hp'), Hbank, Hcount.
  apply Z.min_le_compat_r.
  destruct (Z.ltb_spec (nxpr_use p + nfpr_use p) 2) as [Hu|Hu],
    (Z.ltb_spec (nxpr_use p' + nfpr_use p') 2) as [Hu'|Hu']; try lia.
  - apply Z.mul_le_mono_nonneg_r; [done|].
    destruct (Z.eq_dec (nxfpr_bank p) 0) as [->|Hne];
      [by rewrite Z.quot_0_l by lia|].
    apply Z.quot_le_upper_bound; nia.
  - apply Z.mul_le_mono_nonneg_r; [done|].
    apply Z.quot_le_compat_l; lia.
Qed.

Lemma with_vlmax_same q : with_vlmax (vlmax q) q = q.
Proof. by destruct q. Qed.

(** X9.  The defaults of [reset] agree with [vcfg]: on a processor just
    reset, [vcfg] computes the maximum vector length [min(32, MAX_UTS)], and
    with a lane array of at least 32 lanes it changes nothing. *)
Theorem vcfg_after_reset p :
  vlmax (vcfg (reset p)) = Z.min 32 MAX_UTS
  /\ (32 <= MAX_UTS -> vcfg (reset p) = reset p).
Proof.
  assert (vcfg (reset p) = with_vlmax (Z.min 32 MAX_UTS) (reset p)) as Hv.
  { unfold vcfg.
    change (nxpr_use (reset p)) with 32. change (nfpr_use (reset p)) with 32.
    change (nxfpr_bank (reset p)) with 256.
    change (vecbanks_count (reset p)) with 8.
    by change (wrap_int (32 + 32)) with 64. }
  rewrite Hv. split; [done|]. intros Hcap.
  rewrite Z.min_l by done. exact (with_vlmax_same (reset p)).
Qed.

End VectorMore.

(** ** Interrupts *)

Section InterruptMore.
Context {cfg : Config}.

(** Line [n] of the interrupts that [take_interrupt] computes: pending in
    the cause register and enabled in the status register. *)
Lemma interrupts_bit p n :
  0 <= CAUSE_IP_SHIFT -> 0 <= SR_IM_SHIFT -> 0 <= n ->
  Z.testbit
    (Z.land (wrap32 (Z.shiftr (Z.land (cause p) CAUSE_IP) CAUSE_IP_SHIFT))
            (Z.shiftr (Z.land (sr p) SR_IM) SR_IM_SHIFT)) n
  = (n <? 32)
    && Z.testbit (Z.land (cause p) CAUSE_IP) (n + CAUSE_IP_SHIFT)
    && Z.testbit (Z.land (sr p) SR_IM) (n + SR_IM_SHIFT).
Proof.
  intros Hip Him Hn. unfold wrap32.
  by rewrite Z.land_spec, testbit_wrap, !Z.shiftr_spec by lia.
Qed.

Lemma interrupts_truthy p :
  0 <= CAUSE_IP_SHIFT -> 0 <= SR_IM_SHIFT ->
  truthy
    (Z.land (wrap32 (Z.shiftr (Z.land (cause p) CAUSE_IP) CAUSE_IP_SHIFT))
            (Z.shiftr (Z.land (sr p) SR_IM) SR_IM_SHIFT)) = true
  <-> exists n, 0 <= n < 32
      /\ Z.testbit (Z.land (cause p) CAUSE_IP) (n + CAUSE_IP_SHIFT) = true
      /\ Z.testbit (Z.land (sr p) SR_IM) (n + SR_IM_SHIFT) = true.
Proof.
  intros Hip Him. rewrite truthy_true. split.
  - intros Hne.
    remember (Z.land (wrap32 _) _) as x eqn:Hxdef.
    assert (0 <= x) as Hx.
    { rewrite Hxdef. apply Z.land_nonneg. left. unfold wrap32, wrap.
      match goal with
      | |- 0 <= ?a mod ?b => pose proof (Z.mod_pos_bound a b); lia
      end. }
    pose proof (Z.log2_nonneg x) as Hlog.
    pose proof (Z.bit_log2 x ltac:(lia)) as Hbit.
    pose proof (interrupts_bit p (Z.log2 x) Hip Him Hlog) as Hb.
    rewrite <- Hxdef, Hbit in Hb. symmetry in Hb.
    apply andb_true_iff in Hb as [[Hlt%Z.ltb_lt Hc]%andb_true_iff Hs].
    exists (Z.log2 x). by repeat split.
  - intros (n & [Hn Hlt] & Hc & Hs) Hzero.
    pose proof (interrupts_bit p n Hip Him Hn) as Hbit.
    rewrite Hzero, Z.bits_0, Hc, Hs in Hbit.
    by destruct (Z.ltb_spec n 32); [|lia].
Qed.

(** X10.  [take_interrupt] never changes the processor and throws nothing
    but [trap_interrupt]; it throws exactly when [SR_ET] is set and one of
    the 32 interrupt lines is both pending in the cause register, under
    [CAUSE_IP], and enabled in the status register, under [SR_IM]. *)
Theorem take_interrupt_throws p :
  0 <= CAUSE_IP_SHIFT -> 0 <= SR_IM_SHIFT ->
  (take_interrupt p = Returns tt p
   \/ take_interrupt p = Throws (throw_trap trap_interrupt) p)
  /\ (take_interrupt p = Throws (throw_trap trap_interrupt) p
      <-> Z.land (sr p) SR_ET ≠ 0
          /\ exists n, 0 <= n < 32
             /\ Z.testbit (Z.land (cause p) CAUSE_IP) (n + CAUSE_IP_SHIFT)
                = true
             /\ Z.testbit (Z.land (sr p) SR_IM) (n + SR_IM_SHIFT) = true).
Proof.
  intros Hip Him. pose proof (interrupts_truthy p Hip Him) as Hiff.
  unfold take_interrupt.
  destruct (truthy (Z.land (wrap32 _) _)) eqn:Hany;
    destruct (truthy (Z.land (sr p) SR_ET)) eqn:Het; simpl.
  - split; [by right|]. apply truthy_true in Het.
    split; [intros _; split; [done|by apply Hiff]|done].
  - split; [by left|]. apply truthy_false in Het.
    split; [done|]. by intros [? _].
  - split; [by left|]. split; [done|].
    intros [_ Hline]. apply Hiff in Hline. done.
  - split; [by left|]. split; [done|].
    intros [_ Hline]. apply Hiff in Hline. done.
Qed.

(** X11.  [deliver_ipi] makes the processor runnable and sets the pending
    bit of the inter-processor interrupt, leaving every other bit of a
    64-bit cause register as it was; when that line is under [CAUSE_IP], is
    enabled in the status register under [SR_IM], and [SR_ET] is set, the
    next [take_interrupt] throws [trap_interrupt]. *)
Theorem deliver_ipi_taken p :
  0 <= cause p < 2 ^ 64 ->
  0 <= IPI_IRQ < 31 - CAUSE_IP_SHIFT ->
  0 <= CAUSE_IP_SHIFT -> 0 <= SR_IM_SHIFT ->
  let q := deliver_ipi p in
  run q = true
  /\ (forall n, 0 <= n ->
        Z.testbit (cause q) n
        = Z.testbit (cause p) n || (n =? IPI_IRQ + CAUSE_IP_SHIFT))
  /\ (Z.testbit CAUSE_IP (IPI_IRQ + CAUSE_IP_SHIFT) = true ->
      Z.testbit (Z.land (sr p) SR_IM) (IPI_IRQ + SR_IM_SHIFT) = true ->
      Z.land (sr p) SR_ET ≠ 0 ->
      take_interrupt q = Throws (throw_trap trap_interrupt) q).
Proof.
  intros Hcause Hirq Hip Him q.
  assert (forall n, 0 <= n ->
            Z.testbit (cause q) n
            = Z.testbit (cause p) n || (n =? IPI_IRQ + CAUSE_IP_SHIFT))
    as Hbits.
  { intros n Hn. unfold q, deliver_ipi, ip_bit, wrap64.
    cbn [cause with_run with_cause].
    rewrite testbit_wrap, Z.lor_spec, Z.shiftl_spec by lia.
    destruct (Z.eqb_spec n (IPI_IRQ + CAUSE_IP_SHIFT)) as [->|Hne].
    - rewrite Z.sub_diag. simpl. rewrite orb_true_r.
      by destruct (Z.ltb_spec (IPI_IRQ + CAUSE_IP_SHIFT) 64); [|lia].
    - assert (Z.testbit 1 (n - (IPI_IRQ + CAUSE_IP_SHIFT)) = false) as ->.
      { destruct (Z.lt_ge_cases (n - (IPI_IRQ + CAUSE_IP_SHIFT)) 0).
        - by apply Z.testbit_neg_r.
        - apply (bits_above_width 1 1); lia. }
      rewrite orb_false_r. destruct (Z.ltb_spec n 64); [done|].
      simpl. symmetry. apply (bits_above_width _ 64); lia. }
  split; [done|]. split; [done|].
  intros Hmask Hline Het. unfold take_interrupt.
  change (sr q) with (sr p).
  assert (truthy
            (Z.land (wrap32 (Z.shiftr (Z.land (cause q) CAUSE_IP)
                                      CAUSE_IP_SHIFT))
                    (Z.shiftr (Z.land (sr q) SR_IM) SR_IM_SHIFT)) = true)
    as Hany.
  { apply interrupts_truthy; [done..|]. exists IPI_IRQ.
    split; [lia|]. split; [|done].
    rewrite Z.land_spec, Hbits, Hmask, Z.eqb_refl by lia.
    by rewrite orb_true_r. }
  change (sr q) with (sr p) in Hany. rewrite Hany.
  by rewrite (proj2 (truthy_true _) Het).
Qed.

End InterruptMore.

(** ** After a delivered trap *)

Section TrapMore.
Context {cfg : Config}.

(** What [take_trap] did when it returned. *)
Lemma take_trap_returned t noisy p p' :
  take_trap t noisy p = Returns tt p' ->
  t < NUM_TRAPS /\ Z.land (sr p) SR_ET ≠ 0
  /\ p' = (let q := if noisy
                    then with_stdout
                           (stdout p ++ [trace_trap (id p) t (pc p)]) p
                    else p in
           let q := set_sr (sr_on_trap (sr q)) q in
           let q := with_cause (cause_on_trap (cause q) t) q in
           let q := with_epc (pc q) q in
           let q := with_pc (evec q) q in
           with_badvaddr (mmu_badvaddr (mmu q)) q).
Proof.
  unfold take_trap, bind, demand, gets, modify, ret.
  destruct (Z.ltb_spec t NUM_TRAPS) as [Ht|Ht]; [|done].
  destruct (truthy (Z.land (sr p) SR_ET)) eqn:Het; [|done].
  apply truthy_true in Het. by destruct noisy; intros [= <-].
Qed.

Lemma take_trap_clears_ET t noisy p p' :
  Z.land SR_ET SR_S = 0 -> Z.land SR_ET SR_PS = 0 ->
  take_trap t noisy p = Returns tt p' ->
  Z.land (sr p') SR_ET = 0 /\ id p' = id p /\ pc p' = evec p.
Proof.
  intros HES HEP (Ht & Het & ->)%take_trap_returned.
  destruct noisy; cbv zeta;
    cbn [sr id pc with_badvaddr with_pc with_epc with_cause set_sr with_xprlen
         with_mmu with_sr with_stdout];
    (split; [by apply sr_on_trap_ET|done]).
Qed.

Lemma take_trap_no_throw t noisy p e q : take_trap t noisy p ≠ Throws e q.
Proof.
  unfold take_trap, bind, demand, gets, modify, ret.
  destruct (t <? NUM_TRAPS); [|done].
  destruct (truthy (Z.land (sr p) SR_ET)); [|done]. by destruct noisy.
Qed.

(** X12.  Traps do not nest: once a trap is delivered, with [SR_ET]
    disjoint from [SR_S] and [SR_PS], the next [take_interrupt] takes no
    interrupt, whatever is pending, and every further [take_trap] aborts
    the process, a legal trap in error mode at the trap vector. *)
Theorem delivered_trap_disables_traps t noisy p p' :
  Z.land SR_ET SR_S = 0 -> Z.land SR_ET SR_PS = 0 ->
  take_trap t noisy p = Returns tt p' ->
  Z.land (sr p') SR_ET = 0
  /\ take_interrupt p' = Returns tt p'
  /\ (forall t' noisy',
        take_trap t' noisy' p'
        = Aborts (if t' <? NUM_TRAPS then error_mode (id p) t' (evec p)
                  else bad_trap_number t')).
Proof.
  intros HES HEP Hrun.
  destruct (take_trap_clears_ET t noisy p p' HES HEP Hrun)
    as (Hoff & Hid & Hpc).
  split; [done|]. split; [by apply no_interrupt_when_disabled|].
  intros t' noisy'. destruct (Z.ltb_spec t' NUM_TRAPS).
  - rewrite take_trap_error_mode by done. by rewrite Hid, Hpc.
  - by apply take_trap_bad_number.
Qed.

(** X13.  A delivered trap leaves the memory subsystem in supervisor mode
    (with [SR_S] implemented, not zero and disjoint from [SR_PS]) with one
    more flush of the translation cache, copies the bad address from it,
    writes the one trace line when it is noisy and none otherwise, and
    changes neither the registers, nor the trap vector, nor the counters,
    nor the run flag, nor the vector configuration. *)
Theorem delivered_trap_frame t noisy p p' :
  implemented SR_S -> SR_S ≠ 0 -> Z.land SR_S SR_PS = 0 ->
  take_trap t noisy p = Returns tt p' ->
  supervisor (mmu p') = true
  /\ tlb_flushes (mmu p') = S (tlb_flushes (mmu p))
  /\ badvaddr p' = mmu_badvaddr (mmu p)
  /\ stdout p'
     = stdout p ++ (if noisy then [trace_trap (id p) t (pc p)] else [])
  /\ XPR p' = XPR p /\ FPR p' = FPR p /\ evec p' = evec p
  /\ count p' = count p /\ compare p' = compare p /\ cycle p' = cycle p
  /\ run p' = run p /\ fsr p' = fsr p
  /\ vl p' = vl p /\ vlmax p' = vlmax p /\ uts p' = uts p.
Proof.
  intros HS Hne HSP (Ht & Het & ->)%take_trap_returned.
  pose proof (sr_on_trap_S (sr p) HS HSP) as Hsup.
  split.
  - destruct noisy; cbv zeta;
      cbn [supervisor mmu sr with_badvaddr with_pc with_epc with_cause set_sr
           with_xprlen with_mmu with_sr with_stdout];
      rewrite Hsup; by apply truthy_true.
  - destruct noisy; cbv zeta; repeat split; try reflexivity;
      cbn [stdout with_badvaddr with_pc with_epc with_cause set_sr
           with_xprlen with_mmu with_sr]; by rewrite app_nil_r.
Qed.

(** X14.  Trap delivery keeps the pending interrupts: with [CAUSE_IP]
    within the 64 bits of the cause register and disjoint from the
    exception-code field, and a trap number whose shift
    [t << CAUSE_EXCCODE_SHIFT] stays within [int] and within the field, the
    pending bits of the cause register are the same after the trap. *)
Theorem delivered_trap_keeps_pending t noisy p p' :
  0 <= CAUSE_IP < 2 ^ 64 ->
  Z.land CAUSE_IP CAUSE_EXCCODE = 0 ->
  0 <= Z.shiftl t CAUSE_EXCCODE_SHIFT < 2 ^ 31 ->
  Z.land (Z.shiftl t CAUSE_EXCCODE_SHIFT) CAUSE_EXCCODE
  = Z.shiftl t CAUSE_EXCCODE_SHIFT ->
  take_trap t noisy p = Returns tt p' ->
  Z.land (cause p') CAUSE_IP = Z.land (cause p) CAUSE_IP.
Proof.
  intros Hrange Hdisjoint Hint Hfits (Ht & Het & ->)%take_trap_returned.
  assert (cause (let q := if noisy
                    then with_stdout
                           (stdout p ++ [trace_trap (id p) t (pc p)]) p
                    else p in
           let q := set_sr (sr_on_trap (sr q)) q in
           let q := with_cause (cause_on_trap (cause q) t) q in
           let q := with_epc (pc q) q in
           let q := with_pc (evec q) q in
           with_badvaddr (mmu_badvaddr (mmu q)) q)
          = cause_on_trap (cause p) t) as -> by by destruct noisy.
  unfold cause_on_trap, wrap64. rewrite (shift_in_int _ Hint).
  bitwise n Hn. rewrite testbit_wrap by lia.
  repeat first [ rewrite Z.land_spec | rewrite Z.lor_spec
               | rewrite Z.lnot_spec by exact Hn ].
  at_bit Hdisjoint n Hn Hd. at_bit Hfits n Hn Hf.
  destruct (Z.ltb_spec n 64).
  - destruct (Z.testbit CAUSE_IP n), (Z.testbit CAUSE_EXCCODE n),
      (Z.testbit (cause p) n), (Z.testbit (Z.shiftl t CAUSE_EXCCODE_SHIFT) n);
      simpl in *; congruence.
  - rewrite (bits_above_width CAUSE_IP 64 n) by (done || lia).
    by rewrite !andb_false_r.
Qed.

End TrapMore.

(** ** The counters *)

Section CounterMore.
Context {cfg : Config}.

(** X15.  The counter update of [step] adds the batch to the cycle counter
    and, within its width, to the instruction counter; of a 64-bit cause
    register it can change the timer's pending bit only, and it changes
    neither the status register, nor the threshold, nor the program
    counter. *)
Theorem advance_counters_frame i p :
  0 <= timer_bit < 31 -> 0 <= cause p < 2 ^ 64 ->
  let q := advance_counters i p in
  cycle q = wrap64 (cycle p + i)
  /\ count q = wrap count_bits (count p + i)
  /\ (forall n, 0 <= n -> n ≠ timer_bit ->
        Z.testbit (cause q) n = Z.testbit (cause p) n)
  /\ sr q = sr p /\ compare q = compare p /\ pc q = pc p /\ run q = run p.
Proof.
  intros Hbit Hcause q.
  assert (forall n, 0 <= n -> n ≠ timer_bit ->
            Z.testbit (cause q) n = Z.testbit (cause p) n) as Hbits.
  { intros n Hn Hne. unfold q. rewrite advance_counters_cause.
    destruct (_ && _); [|done].
    unfold wrap64, ip_bit. fold timer_bit.
    rewrite testbit_wrap, Z.lor_spec, Z.shiftl_spec by lia.
    assert (Z.testbit 1 (n - timer_bit) = false) as ->.
    { destruct (Z.lt_ge_cases (n - timer_bit) 0).
      - by apply Z.testbit_neg_r.
      - apply (bits_above_width 1 1); lia. }
    rewrite orb_false_r. destruct (Z.ltb_spec n 64); [done|].
    simpl. symmetry. apply (bits_above_width _ 64); lia. }
  unfold q, advance_counters in *.
  cbn [count compare with_cycle with_count] in *.
  by destruct (_ && _).
Qed.

End CounterMore.

(** ** Batches *)

Section StepMore.
Context {cfg : Config}.
Variable dispatch_arrays : dispatch_state.
Variable insn_func : string -> Z -> Z -> M Z.
Variable load_insn : mmu_t -> Z -> bool -> mmu_t * (Z + Z).

Lemma wrap64_small x : 0 <= x < 2 ^ 64 -> wrap64 x = x.
Proof. intros Hx. unfold wrap64, wrap. by apply Z.mod_small. Qed.

Lemma insn_loop_runs noisy n :
  n < 2 ^ 64 ->
  forall fuel i p p',
    0 <= i <= n -> (Z.to_nat (n - i) <= fuel)%nat ->
    execute_insns dispatch_arrays insn_func load_insn (Z.to_nat (n - i))
      noisy p = Returns tt p' ->
    insn_loop dispatch_arrays insn_func load_insn fuel noisy n i p
    = loop_done n p'.
Proof.
  intros Hn. induction fuel as [|fuel IH]; intros i p p' Hi Hfuel Hrun;
    rewrite insn_loop_unfold; destruct (Z.ltb_spec i n); try lia.
  - assert (i = n) as -> by lia. rewrite Z.sub_diag in Hrun.
    change (Returns tt p = Returns tt p') in Hrun. congruence.
  - replace (Z.to_nat (n - i)) with (S (Z.to_nat (n - (i + 1)))) in Hrun
      by lia.
    cbn [execute_insns] in Hrun. unfold bind in Hrun.
    destruct (execute_insn dispatch_arrays insn_func load_insn noisy p)
      as [u q|e q|d]; [|discriminate..].
    rewrite wrap64_small by lia. apply IH; [lia..|done].
  - assert (i = n) as -> by lia. rewrite Z.sub_diag in Hrun.
    change (Returns tt p = Returns tt p') in Hrun. congruence.
Qed.

Lemma insn_loop4_runs n :
  n < 2 ^ 64 ->
  forall fuel i p p',
    0 <= i <= n -> (Z.to_nat (n - i) <= fuel)%nat ->
    execute_insns dispatch_arrays insn_func load_insn (Z.to_nat (n - i))
      false p = Returns tt p' ->
    exists i' p1,
      insn_loop4 dispatch_arrays insn_func load_insn fuel n i p
      = loop_done i' p1
      /\ i <= i' <= n
      /\ execute_insns dispatch_arrays insn_func load_insn
            (Z.to_nat (n - i')) false p1 = Returns tt p'.
Proof.
  intros Hn. induction fuel as [|fuel IH]; intros i p p' Hi Hfuel Hrun;
    rewrite insn_loop4_unfold;
    destruct (Z.ltb_spec 3 n); simpl;
    try (exists i, p; split; [done|split; [lia|done]]);
    destruct (Z.ltb_spec i (n - 3)); simpl;
    try (exists i, p; split; [done|split; [lia|done]]); try lia.
  replace (Z.to_nat (n - i))
    with (S (S (S (S (Z.to_nat (n - (i + 4))))))) in Hrun by lia.
  cbn [execute_insns] in Hrun. unfold bind in *.
  destruct (execute_insn dispatch_arrays insn_func load_insn false p)
    as [u1 q1|e q|d]; [|discriminate..].
  destruct (execute_insn dispatch_arrays insn_func load_insn false q1)
    as [u2 q2|e q|d]; [|discriminate..].
  destruct (execute_insn dispatch_arrays insn_func load_insn false q2)
    as [u3 q3|e q|d]; [|discriminate..].
  destruct (execute_insn dispatch_arrays insn_func load_insn false q3)
    as [u4 q4|e q|d]; [|discriminate..].
  rewrite wrap64_small by lia.
  destruct (IH (i + 4) q4 p') as (i' & p1 & -> & Hi' & Hrest); [lia..|done|].
  exists i', p1. split; [done|split; [lia|done]].
Qed.

(** X16.  A batch in which no interrupt is taken and the [n] instructions
    retire one after the other counts exactly [n] instructions, traced or
    not, through the groups of four or not: [step] ends in the counter
    update for [n], applied to the state that the [n] instructions leave. *)
Theorem full_batch_counts_n fuel n noisy p p' :
  run p = true ->
  take_interrupt p = Returns tt p ->
  0 <= n < 2 ^ 64 -> (Z.to_nat n < fuel)%nat ->
  execute_insns dispatch_arrays insn_func load_insn (Z.to_nat n) noisy p
  = Returns tt p' ->
  step dispatch_arrays insn_func load_insn fuel n noisy p
  = step_returns (advance_counters n p').
Proof.
  intros Hrun Hint Hn Hfuel Hall. unfold step. rewrite Hrun. cbn [negb].
  destruct fuel as [|fuel]; [lia|]. cbn [step_loop].
  unfold try_block. rewrite Hint.
  rewrite <- (Z.sub_0_r n) in Hall. destruct noisy.
  - by rewrite (insn_loop_runs true n (proj2 Hn) (S fuel) 0 p p')
      by (done || lia).
  - destruct (insn_loop4_runs n (proj2 Hn) (S fuel) 0 p p')
      as (i' & p1 & -> & Hi' & Hrest); [lia..|done|].
    by rewrite (insn_loop_runs false n (proj2 Hn) (S fuel) i' p1 p')
      by (done || lia).
Qed.

(** X17.  An untraced batch counts the instructions of a group of four only
    when the whole group has retired.  When the first instruction retires
    and the second throws the stop command, a batch of 4, which runs them in
    a group, counts 1, and a batch of 3, which runs the same two
    instructions one by one, counts 2. *)
Theorem group_of_four_discards_count fuel p p1 p2 :
  run p = true ->
  take_interrupt p = Returns tt p ->
  execute_insn dispatch_arrays insn_func load_insn false p = Returns tt p1 ->
  execute_insn dispatch_arrays insn_func load_insn false p1
  = Throws (throw_vt_command vt_command_stop) p2 ->
  step dispatch_arrays insn_func load_insn (S (S fuel)) 4 false p
  = step_returns (advance_counters 1 p2)
  /\ step dispatch_arrays insn_func load_insn (S (S fuel)) 3 false p
     = step_returns (advance_counters 2 p2).
Proof.
  intros Hrun Hint Hfirst Hsecond. unfold step. rewrite Hrun. cbn [negb].
  cbn [step_loop]. unfold try_block. rewrite Hint. split.
  - rewrite insn_loop4_unfold.
    change ((3 <? 4) && (0 <? 4 - 3)) with true. cbv iota.
    unfold bind. by rewrite Hfirst, Hsecond.
  - rewrite insn_loop4_unfold.
    change ((3 <? 3) && (0 <? 3 - 3)) with false. cbv iota.
    rewrite insn_loop_unfold. change (0 <? 3) with true. cbv iota.
    rewrite Hfirst. change (wrap64 (0 + 1)) with 1.
    rewrite insn_loop_unfold. change (1 <? 3) with true. cbv iota.
    by rewrite Hsecond.
Qed.

(** X18.  The halt signal: when the first instruction of a batch throws it,
    [step] returns the processor reset from the state at the throw and
    updates no counter; the processor is then not runnable, its counters are
    zero, and every further [step] leaves it as it is. *)
Theorem halt_resets fuel n noisy p q :
  run p = true ->
  take_interrupt p = Returns tt p ->
  0 < n ->
  execute_insn dispatch_arrays insn_func load_insn noisy p = Throws throw_halt q ->
  step dispatch_arrays insn_func load_insn (S fuel) n noisy p
  = step_returns (reset q)
  /\ run (reset q) = false /\ count (reset q) = 0 /\ cycle (reset q) = 0
  /\ (forall fuel' n' noisy',
        step dispatch_arrays insn_func load_insn fuel' n' noisy' (reset q)
        = step_returns (reset q)).
Proof.
  intros Hrun Hint Hn Hhalt.
  assert (run (reset q) = false) as Hoff by reflexivity.
  split; [|split; [done|split; [reflexivity|split; [reflexivity|]]]];
    [|intros fuel' n' noisy'; unfold step; by rewrite Hoff].
  unfold step. rewrite Hrun. cbn [negb step_loop].
  unfold try_block. rewrite Hint. destruct noisy.
  - rewrite insn_loop_unfold. destruct (Z.ltb_spec 0 n); [|lia].
    by rewrite Hhalt.
  - rewrite insn_loop4_unfold.
    destruct ((3 <? n) && (0 <? n - 3)).
    + unfold bind. by rewrite Hhalt.
    + rewrite insn_loop_unfold. destruct (Z.ltb_spec 0 n); [|lia].
      by rewrite Hhalt.
Qed.

Lemma insn_loop_progress n :
  n < 2 ^ 64 ->
  forall fuel noisy i p,
    0 <= i -> (Z.to_nat (n - i) <= fuel)%nat ->
    match insn_loop dispatch_arrays insn_func load_insn fuel noisy n i p with
    | loop_fuel => False
    | loop_throws _ i' _ => i <= i' < n
    | loop_done i' _ => i <= i'
    | loop_aborts _ => True
    end.
Proof.
  intros Hn. induction fuel as [|fuel IH]; intros noisy i p Hi Hfuel;
    rewrite insn_loop_unfold; destruct (Z.ltb_spec i n); try lia.
  destruct (execute_insn _ _ _ noisy p) as [[] q|e q|d]; [|lia|done].
  rewrite wrap64_small by lia.
  specialize (IH noisy (i + 1) q ltac:(lia) ltac:(lia)).
  destruct (insn_loop _ _ _ fuel noisy n (i + 1) q); lia.
Qed.

Lemma insn_loop4_progress n :
  n < 2 ^ 64 ->
  forall fuel i p,
    0 <= i -> (Z.to_nat (n - i) <= fuel)%nat ->
    match insn_loop4 dispatch_arrays insn_func load_insn fuel n i p with
    | loop_fuel => False
    | loop_throws _ i' _ => i <= i' < n
    | loop_done i' _ => i <= i'
    | loop_aborts _ => True
    end.
Proof.
  intros Hn. induction fuel as [|fuel IH]; intros i p Hi Hfuel;
    rewrite insn_loop4_unfold;
    destruct (Z.ltb_spec 3 n); simpl; try lia;
    destruct (Z.ltb_spec i (n - 3)); simpl; try lia.
  unfold bind.
  destruct (execute_insn _ _ _ false p) as [[] q1|e q1|d]; [|lia|done].
  destruct (execute_insn _ _ _ false q1) as [[] q2|e q2|d]; [|lia|done].
  destruct (execute_insn _ _ _ false q2) as [[] q3|e q3|d]; [|lia|done].
  destruct (execute_insn _ _ _ false q3) as [[] q4|e q4|d]; [|lia|done].
  rewrite wrap64_small by lia.
  specialize (IH (i + 4) q4 ltac:(lia) ltac:(lia)).
  destruct (insn_loop4 _ _ _ fuel n (i + 4) q4); lia.
Qed.

(** One turn of the [try] block ends, and what it throws is the interrupt
    taken before the first instruction, with traps enabled, or comes from an
    instruction of the batch. *)
Lemma try_block_progress n fuel noisy i p :
  n < 2 ^ 64 -> 0 <= i -> (Z.to_nat (n - i) <= fuel)%nat ->
  match try_block dispatch_arrays insn_func load_insn fuel noisy n i p with
  | loop_fuel => False
  | loop_throws e i' _ =>
    (e = throw_trap trap_interrupt /\ i' = i /\ Z.land (sr p) SR_ET ≠ 0)
    \/ i <= i' < n
  | _ => True
  end.
Proof.
  intros Hn Hi Hfuel. unfold try_block, take_interrupt.
  destruct (truthy _) eqn:Hany; simpl.
  - destruct (truthy (Z.land (sr p) SR_ET)) eqn:Het.
    + left. by apply truthy_true in Het.
    + clear Het Hany. destruct noisy.
      * pose proof (insn_loop_progress n Hn fuel true i p Hi Hfuel) as H1.
        destruct (insn_loop _ _ _ fuel true n i p); tauto.
      * pose proof (insn_loop4_progress n Hn fuel i p Hi Hfuel) as H4.
        destruct (insn_loop4 _ _ _ fuel n i p) as [i' p'|e i' p'|d|];
          [|tauto..].
        pose proof (insn_loop_progress n Hn fuel false i' p' ltac:(lia)
                      ltac:(lia)) as H1.
        destruct (insn_loop _ _ _ fuel false n i' p'); try tauto; lia.
  - clear Hany. destruct noisy.
    + pose proof (insn_loop_progress n Hn fuel true i p Hi Hfuel) as H1.
      destruct (insn_loop _ _ _ fuel true n i p); tauto.
    + pose proof (insn_loop4_progress n Hn fuel i p Hi Hfuel) as H4.
      destruct (insn_loop4 _ _ _ fuel n i p) as [i' p'|e i' p'|d|];
        [|tauto..].
      pose proof (insn_loop_progress n Hn fuel false i' p' ltac:(lia)
                    ltac:(lia)) as H1.
      destruct (insn_loop _ _ _ fuel false n i' p'); try tauto; lia.
Qed.

Lemma step_loop_ends n noisy :
  Z.land SR_ET SR_S = 0 -> Z.land SR_ET SR_PS = 0 ->
  0 <= n < 2 ^ 63 ->
  forall fuel i p,
    0 <= i <= n + 1 ->
    i <= n \/ Z.land (sr p) SR_ET = 0 ->
    (2 * Z.to_nat (n - i)
     + (if (Z.land (sr p) SR_ET =? 0)%Z then 1 else 2) <= fuel)%nat ->
    step_loop dispatch_arrays insn_func load_insn fuel noisy n i p ≠ step_fuel.
Proof.
  intros HES HEP Hn. induction fuel as [|fuel IH]; intros i p Hi Hinv Hfuel.
  { destruct (Z.land (sr p) SR_ET =? 0); lia. }
  cbn [step_loop].
  pose proof (try_block_progress n (S fuel) noisy i p ltac:(lia) ltac:(lia))
    as Hturn.
  assert (Z.to_nat (n - i) <= S fuel)%nat as Hinner
    by (destruct (Z.land (sr p) SR_ET =? 0); lia).
  specialize (Hturn Hinner).
  destruct (try_block _ _ _ (S fuel) noisy n i p) as [i' p'|e i' p'|d|];
    [done| |done|done].
  assert (i <= i' <= n) as Hi'.
  { destruct Hturn as [(_ & -> & Het)|?]; [|lia].
    destruct Hinv as [?|Hoff]; [lia|done]. }
  rewrite wrap64_small by lia.
  destruct e as [t|cmd|]; [| |done].
  - destruct (take_trap t noisy p') as [[] p''|e q|d] eqn:Htrap; [| |done].
    + destruct (take_trap_clears_ET t noisy p' p'' HES HEP Htrap)
        as (Hoff & _).
      apply IH; [lia|by right|]. rewrite Hoff. simpl.
      destruct Hturn as [(_ & -> & Het)|?].
      * destruct (Z.eqb_spec (Z.land (sr p) SR_ET) 0); [done|lia].
      * destruct (Z.land (sr p) SR_ET =? 0); lia.
    + by destruct (take_trap_no_throw t noisy p' e q).
  - destruct cmd; [done|].
    destruct Hturn as [([=] & _)|Hin].
    apply IH; [lia|left; lia|].
    destruct (Z.land (sr p') SR_ET =? 0), (Z.land (sr p) SR_ET =? 0); lia.
Qed.

(** X19.  [step] ends: with [SR_ET] disjoint from [SR_S] and [SR_PS], so
    that a delivered trap disables the traps, a batch of [n] instructions
    makes at most [2 n + 2] turns of its [while(1)] loop, whatever the
    handlers and the memory do. *)
Theorem step_ends fuel n noisy p :
  Z.land SR_ET SR_S = 0 -> Z.land SR_ET SR_PS = 0 ->
  0 <= n < 2 ^ 63 ->
  (2 * Z.to_nat n + 2 <= fuel)%nat ->
  step dispatch_arrays insn_func load_insn fuel n noisy p ≠ step_fuel.
Proof.
  intros HES HEP Hn Hfuel. unfold step. destruct (run p); [|done].
  cbn [negb]. apply step_loop_ends; [done..|lia|left; lia|].
  rewrite Z.sub_0_r. destruct (Z.land (sr p) SR_ET =? 0); lia.
Qed.

End StepMore.

(** ** The lanes *)

Section LanesMore.
Context {cfg : Config}.

Lemma sr_after_write_features val :
  Z.land (sr_after_write val) (if RISCV_ENABLE_FPU then 0 else SR_EF) = 0
  /\ Z.land (sr_after_write val) (if RISCV_ENABLE_VEC then 0 else SR_EV) = 0.
Proof.
  unfold sr_after_write.
  destruct RISCV_ENABLE_64BIT, RISCV_ENABLE_FPU, RISCV_ENABLE_RVC,
    RISCV_ENABLE_VEC;
    cbv beta iota zeta; split; rewrite ?Z.land_0_r; try done;
    bitwise n Hn;
    repeat match goal with
           | |- context [Z.testbit ?x ?k] => destruct (Z.testbit x k); simpl
           end; done.
Qed.

Lemma sr_after_write_sets val m :
  implemented m -> Z.land val m = m -> Z.land (sr_after_write val) m = m.
Proof. intros Hm Hval. by rewrite sr_after_write_mask. Qed.

Lemma lor_keeps a b m : Z.land a m = m -> Z.land (Z.lor a b) m = m.
Proof.
  intros Ha. bitwise n Hn. at_bit Ha n Hn Han.
  destruct (Z.testbit a n), (Z.testbit b n), (Z.testbit m n);
    simpl in *; congruence.
Qed.

Lemma lor_sets a m : Z.land (Z.lor a m) m = m.
Proof.
  bitwise n Hn. by destruct (Z.testbit a n), (Z.testbit m n).
Qed.

(** The status register of a lane after its two writes in [init]. *)
Lemma setup_lane_sr _id i lane :
  sr (setup_lane _id i lane)
  = sr_after_write
      (Z.lor (sr_after_write (Z.lor (sr lane) SR_EF)) SR_EV).
Proof. reflexivity. Qed.

Lemma init_arrays_kept opcodes storage arrays (places : list nat) f :
  dispatch_table arrays !! 0%nat = Some (Some f) ->
  fold_left (fun a i => fst (processor_new opcodes a (storage i)))
            places arrays = arrays.
Proof.
  intros Hguard. induction places as [|i places IH]; [done|].
  simpl. unfold initialize_dispatch_table at 2. by rewrite Hguard.
Qed.

(** X20.  [init] gives the processor its core number and [MAX_UTS] lanes,
    each built by the constructor and then set up: lane [i] is in place [i]
    of the lane array, has the core number of its owner and the lane index
    [i], is reset (not runnable, program counter 0, no lanes of its own) and
    has had its translation cache flushed three times.  Its floating-point
    and vector enables went through [set_sr]: each is set when the build
    implements the bit and is clear when the build leaves the capability
    out.  The dispatch arrays, filled by the owner's constructor, are as
    they were. *)
Theorem init_lanes opcodes _id storage arrays p f :
  dispatch_table arrays !! 0%nat = Some (Some f) ->
  let r := init opcodes _id storage arrays p in
  fst (fst r) = arrays
  /\ id (snd (fst r)) = _id
  /\ length (uts (snd (fst r))) = Z.to_nat MAX_UTS
  /\ length (snd r) = Z.to_nat MAX_UTS
  /\ forall (i : nat) lane,
       snd r !! i = Some lane ->
       uts (snd (fst r)) !! i = Some (Some i)
       /\ id lane = _id /\ utidx lane = Z.of_nat i
       /\ run lane = false /\ pc lane = 0
       /\ Forall (fun l => l = None) (uts lane)
       /\ tlb_flushes (mmu lane) = (3 + tlb_flushes (mmu (storage i)))%nat
       /\ Z.land (sr lane) (if RISCV_ENABLE_FPU then 0 else SR_EF) = 0
       /\ Z.land (sr lane) (if RISCV_ENABLE_VEC then 0 else SR_EV) = 0
       /\ (implemented SR_EF -> Z.land (sr lane) SR_EF = SR_EF)
       /\ (implemented SR_EV -> Z.land (sr lane) SR_EV = SR_EV).
Proof.
  intros Hguard r. unfold r, init. cbn [fst snd].
  split; [by eapply init_arrays_kept|]. split; [done|].
  split; [cbn [uts with_uts]; by rewrite length_fmap, length_seq|].
  split; [by rewrite length_fmap, length_seq|].
  intros i lane Hlane.
  rewrite list_lookup_fmap in Hlane.
  destruct (seq 0 (Z.to_nat MAX_UTS) !! i) as [j|] eqn:Hplace; [|done].
  apply lookup_seq in Hplace as [-> Hi]. simpl in Hlane.
  injection Hlane as <-.
  split.
  { cbn [uts with_uts]. rewrite list_lookup_fmap.
    by rewrite lookup_seq_lt by done. }
  unfold processor_new. cbn [snd].
  split; [done|]. split; [done|]. split; [done|]. split; [done|].
  split; [cbn; by apply Forall_replicate|]. split; [done|].
  rewrite setup_lane_sr.
  destruct (sr_after_write_features
              (Z.lor (sr_after_write (Z.lor (sr (reset (storage i))) SR_EF))
                     SR_EV)) as [HEF HEV].
  split; [done|]. split; [done|]. split.
  - intros Himpl. apply sr_after_write_sets; [done|].
    apply lor_keeps. apply sr_after_write_sets; [done|]. apply lor_sets.
  - intros Himpl. apply sr_after_write_sets; [done|]. apply lor_sets.
Qed.

End LanesMore.

(** * The properties on the reference configuration *)

#[local] Existing Instance rv_config.

Lemma rv_table_size_ok : table_size_ok (cfg := rv_config).
Proof. exists 10. split; [lia|reflexivity]. Qed.

Lemma rv_layout_ok : layout_ok (cfg := rv_config).
Proof.
  split; try reflexivity; try (simpl; lia).
  intros t Ht. simpl in *. rewrite Z.shiftl_0_r.
  change 255 with (Z.ones 8). rewrite Z.land_ones by lia.
  apply Z.mod_small. lia.
Qed.

(** C1 as it is stated fails: the one candidate of slot 3 is bound to the
    slot, so the word 3 runs its handler, though the word does not match
    the pattern and the linear scan finds no instruction for it. *)
Lemma lone_candidate_runs_unmatched :
  table_select (arrays_of rv_config lone_opcode) 3 = Some (Selected "lone")
  /\ linear_scan lone_opcode 3 = IllegalInstruction
  /\ table_select (arrays_of rv_config lone_opcode) 3
     ≠ Some (linear_scan lone_opcode 3).
Proof.
  split; [vm_compute; reflexivity|].
  split; [vm_compute; reflexivity|]. vm_compute. discriminate.
Qed.

(** Two candidates in one slot: the word that matches only the second line
    runs the second handler. *)
Lemma table_select_linear_scan_witness :
  table_size_ok (cfg := rv_config)
  /\ length (candidates (cfg := rv_config) colliding_opcodes 0x403) = 2%nat
  /\ table_select (arrays_of rv_config colliding_opcodes) 0x403
     = Some (Selected "second").
Proof.
  split; [exact rv_table_size_ok|].
  split; [vm_compute; reflexivity|].
  refine (proj1 (table_select_linear_scan (cfg := rv_config)
                   colliding_opcodes 0x403 rv_table_size_ok) _).
  left. vm_compute. discriminate.
Defined.

Lemma take_trap_delivers_witness :
  exists p',
    take_trap (cfg := rv_config) 2 false (scenario_started rv_config)
    = Returns tt p'
    /\ Z.land (sr p') 0x10 = 0x10
    /\ Z.land (sr p') 0x20 = 0x20
    /\ Z.land (sr p') 0x1 = 0
    /\ epc p' = 0
    /\ exccode (cfg := rv_config) p' = 2
    /\ pc p' = 0x100.
Proof.
  refine (take_trap_delivers (cfg := rv_config) 2 false
            (scenario_started rv_config) rv_layout_ok _ _ _).
  - simpl. lia.
  - vm_compute. reflexivity.
  - vm_compute. discriminate.
Defined.

(** The 32-bit counter at 2^32 - 1 with the threshold at 5 and a batch of
    ten. *)
Lemma timer_misses_wrapped_crossing_witness :
  counters_ok (late_counter rv_config)
  /\ count (late_counter rv_config) = 2 ^ 32 - 1
  /\ reaches_compare (late_counter rv_config) 10
  /\ timer_pending (advance_counters 10 (late_counter rv_config)) = false.
Proof.
  assert (counters_ok (late_counter rv_config)) as Hok
    by (vm_compute; repeat split; discriminate).
  split; [exact Hok|]. split; [vm_compute; reflexivity|].
  apply (timer_misses_wrapped_crossing (cfg := rv_config)
           (late_counter rv_config) Hok);
    vm_compute; reflexivity.
Defined.

(** A counter at 0 with the threshold at 5 and a batch of ten. *)
Lemma timer_pending_after_batch_witness :
  let p := with_compare 5 (reset raw_processor) in
  counters_ok p
  /\ reaches_compare p 10
  /\ timer_pending p = false
  /\ timer_pending (advance_counters 10 p) = true.
Proof.
  cbv zeta.
  assert (counters_ok (with_compare 5 (reset raw_processor))) as Hok
    by (vm_compute; repeat split; discriminate).
  assert (reaches_compare (with_compare 5 (reset raw_processor)) 10) as Hreach
    by (exists 5; split; [lia|vm_compute; reflexivity]).
  split; [exact Hok|]. split; [exact Hreach|].
  split; [vm_compute; reflexivity|].
  destruct (timer_pending_after_batch (cfg := rv_config) 10
              (with_compare 5 (reset raw_processor)) Hok)
    as (_ & _ & Hbelow & _).
  - vm_compute. split; [discriminate|reflexivity].
  - vm_compute. split; discriminate.
  - apply Hbelow; [vm_compute; reflexivity|]. right. exact Hreach.
Defined.

(** C4 as it is stated fails.  After [reset] the processor is not runnable
    and [step] leaves it as it is, the program counter at 0.  Once started,
    the batch ends in the abort of error mode at 0x100; and had it ended
    after its five instructions, the counter update would not set the
    pending bit. *)
Lemma scenario_sets_no_timer :
  scenario_step rv_config (scenario_setup rv_config)
  = step_returns (scenario_setup rv_config)
  /\ pc (scenario_setup rv_config) = 0
  /\ scenario_step rv_config (scenario_started rv_config)
     = step_aborts (error_mode 0 2 0x100)
  /\ timer_pending (cfg := rv_config)
       (advance_counters (cfg := rv_config) 5 (scenario_started rv_config))
     = false.
Proof.
  split; [vm_compute; reflexivity|].
  split; [vm_compute; reflexivity|].
  split; vm_compute; reflexivity.
Qed.

Lemma scenario_faults_then_error_mode_witness :
  let start := scenario_started rv_config in
  execute_insn (arrays_of rv_config no_opcodes) fallthrough zero_memory
    false start
  = Throws (throw_trap trap_illegal_instruction) start
  /\ (exists p1,
       take_trap trap_illegal_instruction false start = Returns tt p1
       /\ pc start = 0 /\ epc p1 = 0 /\ pc p1 = 0x100
       /\ Z.land (sr p1) SR_ET = 0)
  /\ scenario_step rv_config start
     = step_aborts (error_mode (id start) trap_illegal_instruction 0x100)
  /\ (forall i p, compare p = 0 -> 0 <= count p ->
        timer_pending (advance_counters i p) = timer_pending p).
Proof.
  apply (scenario_faults_then_error_mode (cfg := rv_config) rv_layout_ok).
  - vm_compute. reflexivity.
  - vm_compute. discriminate.
  - split; [vm_compute; discriminate|vm_compute; reflexivity].
Defined.

(** The handler of the one instruction writes 99 to every register; the
    instruction retires with register 0 at zero and register 1 at 99. *)
Lemma retired_insn_zeroes_x0_witness :
  exists p',
    execute_insn (arrays_of rv_config any_opcode) clobber zero_memory false
      (scenario_started rv_config)
    = Returns tt p'
    /\ XPR p' !!! 0%fin = 0
    /\ XPR p' !!! 1%fin = 99.
Proof.
  eexists. split; [vm_compute; reflexivity|].
  split; [|vm_compute; reflexivity].
  eapply (proj1 (retired_insn_zeroes_x0 (cfg := rv_config)
                   (arrays_of rv_config any_opcode) clobber zero_memory)
            false (scenario_started rv_config)).
  vm_compute. reflexivity.
Defined.

(** One register of each kind with banks of 256 and 8 banks: 256 * 8
    = 2048, the capacity of the lane array; a request of 5000 stores 2048. *)
Lemma vcfg_then_setvl_witness :
  vcfg_in_range (one_register_each rv_config)
  /\ vlmax (vcfg (cfg := rv_config) (one_register_each rv_config)) = 2048
  /\ vl (setvl 5000 (vcfg (cfg := rv_config) (one_register_each rv_config)))
     = 2048.
Proof.
  assert (vcfg_in_range (one_register_each rv_config)) as Hrange.
  { vm_compute. repeat split; discriminate. }
  split; [exact Hrange|].
  destruct (vcfg_then_setvl (cfg := rv_config) (one_register_each rv_config)
              5000 Hrange) as (Hmax & Hclamp & _).
  split; [exact Hmax|]. apply Hclamp. vm_compute. reflexivity.
Defined.

(** C8 as it is stated fails: two cores that take the trap number 99 abort
    with the same diagnostic, which names the number and no core. *)
Lemma bad_trap_number_names_no_core :
  take_trap (cfg := rv_config) 99 false raw_processor
  = Aborts (bad_trap_number 99)
  /\ take_trap (cfg := rv_config) 99 false (with_id 1 raw_processor)
     = Aborts (bad_trap_number 99)
  /\ id raw_processor ≠ id (with_id 1 raw_processor).
Proof.
  split; [vm_compute; reflexivity|].
  split; [vm_compute; reflexivity|]. vm_compute. discriminate.
Qed.

Lemma take_trap_aborts_witness :
  take_trap (cfg := rv_config) 99 false (scenario_started rv_config)
  = Aborts (bad_trap_number 99)
  /\ take_trap (cfg := rv_config) 2 true (reset (cfg := rv_config) raw_processor)
     = Aborts (error_mode 0 2 0).
Proof.
  split.
  - refine (take_trap_aborts (cfg := rv_config) 99 false
              (scenario_started rv_config) _).
    simpl. lia.
  - refine (take_trap_aborts (cfg := rv_config) 2 true
              (reset (cfg := rv_config) raw_processor) _).
    intros [_ Het]. apply Het. vm_compute. reflexivity.
Defined.

(** C9 as it is stated fails: after [reset] the status register holds the
    supervisor and 64-bit supervisor bits and the vector configuration holds
    its defaults, none of them zero but the vector length. *)
Lemma reset_leaves_status_and_vector_defaults :
  let q := reset (cfg := rv_config) raw_processor in
  sr q = 0xA0 /\ vecbanks q = 0xff /\ vecbanks_count q = 8 /\ utidx q = -1
  /\ vlmax q = 32 /\ nxfpr_bank q = 256 /\ nxpr_use q = 32 /\ nfpr_use q = 32
  /\ ~ (sr q = 0 /\ vecbanks q = 0 /\ vecbanks_count q = 0 /\ utidx q = 0
        /\ vlmax q = 0 /\ vl q = 0 /\ nxfpr_bank q = 0 /\ nxpr_use q = 0
        /\ nfpr_use q = 0).
Proof.
  cbv zeta.
  repeat (split; [vm_compute; reflexivity|]).
  intros [Hsr _]. revert Hsr. vm_compute. discriminate.
Qed.

(** After [reset], with the maximum at 32: a request of -1 makes the
    vector length -1, and a request of 100 makes it 32. *)
Lemma setvl_stores_request_witness :
  -1 <= vlmax (reset (cfg := rv_config) raw_processor)
  /\ vl (setvl (-1) (reset (cfg := rv_config) raw_processor)) = -1
  /\ vlmax (reset (cfg := rv_config) raw_processor) < 100
  /\ vl (setvl 100 (reset (cfg := rv_config) raw_processor)) = 32.
Proof.
  assert (-1 <= vlmax (reset (cfg := rv_config) raw_processor)) as Hle
    by (vm_compute; discriminate).
  assert (vlmax (reset (cfg := rv_config) raw_processor) < 100) as Hlt
    by (vm_compute; reflexivity).
  split; [exact Hle|].
  split; [exact (proj1 (setvl_stores_request (-1)
                          (reset (cfg := rv_config) raw_processor)) Hle)|].
  split; [exact Hlt|].
  exact (proj1 (proj2 (setvl_stores_request 100
                         (reset (cfg := rv_config) raw_processor))) Hlt).
Defined.

(** * The further properties on the reference configuration *)

Lemma rv_table_positive : 0 < DISPATCH_TABLE_SIZE.
Proof. reflexivity. Qed.

Lemma initialize_dispatch_table_once_witness :
  Nat.iter 3 (initialize_dispatch_table lone_opcode)
    (initialize_dispatch_table colliding_opcodes static_dispatch)
  = initialize_dispatch_table colliding_opcodes static_dispatch.
Proof.
  exact (initialize_dispatch_table_once (cfg := rv_config)
           colliding_opcodes lone_opcode 3 rv_table_positive).
Defined.

Lemma initialized_table_total_witness :
  let arrays := initialize_dispatch_table colliding_opcodes static_dispatch in
  length (dispatch_table arrays) = Z.to_nat DISPATCH_TABLE_SIZE
  /\ length (dispatch_chain arrays) = Z.to_nat DISPATCH_TABLE_SIZE
  /\ (exists f, dispatch_table arrays !! slot_of 0x403 = Some (Some f))
  /\ is_Some (table_select arrays 0x403).
Proof.
  exact (initialized_table_total (cfg := rv_config) colliding_opcodes 0x403
           rv_table_positive).
Defined.

(** The handler of the lone line runs for the word 3, which agrees with its
    pattern 0x403 under the mask 0x47f on the ten bits of the index only. *)
Lemma table_select_sound_witness :
  table_select (arrays_of rv_config lone_opcode) 3 = Some (Selected "lone")
  /\ exists opc msk,
       ("lone"%string, opc, msk) ∈ lone_opcode
       /\ Z.land (Z.of_nat (slot_of 3)) msk
          = Z.land (Z.land opc msk) (DISPATCH_TABLE_SIZE - 1)
       /\ (length (candidates lone_opcode 3) ≠ 1%nat -> Z.land 3 msk = opc).
Proof.
  assert (table_select (arrays_of rv_config lone_opcode) 3
          = Some (Selected "lone")) as Hsel by (vm_compute; reflexivity).
  split; [exact Hsel|].
  exact (table_select_sound (cfg := rv_config) lone_opcode 3 "lone" Hsel).
Defined.

Lemma narrow_build_xprlen_witness :
  xprlen (set_sr (cfg := rv32_config) 0xFFFFFFFF raw_processor) = 32
  /\ xprlen (reset (cfg := rv32_config) raw_processor) = 32.
Proof.
  destruct (narrow_build_xprlen (cfg := rv32_config) eq_refl)
    as (Hset & Hreset & _).
  split; [apply Hset|apply Hreset].
Defined.

Lemma set_fsr_masks_reserved_witness :
  let q := set_fsr 0x1FF raw_processor in
  Z.land (fsr q) FSR_ZERO = 0
  /\ 0 <= fsr q < 2 ^ 32
  /\ Z.land (fsr q) 0xFF = Z.land 0x1FF 0xFF
  /\ set_fsr (fsr q) q = q.
Proof.
  apply (set_fsr_masks_reserved (cfg := rv_config) 0x1FF raw_processor 0xFF).
  - split; [vm_compute; discriminate|vm_compute; reflexivity].
  - vm_compute. reflexivity.
Defined.

Lemma rv_reset_in_range : vcfg_in_range (reset raw_processor).
Proof. vm_compute. repeat split; discriminate. Qed.

Lemma rv_one_register_in_range : vcfg_in_range (one_register_each rv_config).
Proof. vm_compute. repeat split; discriminate. Qed.

(** 64 registers in use against 2: 32 lanes against 2048. *)
Lemma vcfg_antitone_witness :
  vlmax (vcfg (reset raw_processor))
  <= vlmax (vcfg (one_register_each rv_config)).
Proof.
  apply (vcfg_antitone (cfg := rv_config) (one_register_each rv_config)
           (reset raw_processor) rv_one_register_in_range rv_reset_in_range).
  - vm_compute. reflexivity.
  - vm_compute. reflexivity.
  - vm_compute. discriminate.
  - vm_compute. discriminate.
  - vm_compute. discriminate.
Defined.

Lemma vcfg_after_reset_witness :
  32 <= MAX_UTS /\ vcfg (reset raw_processor) = reset raw_processor.
Proof.
  assert (32 <= MAX_UTS) as Hcap by (vm_compute; discriminate).
  split; [exact Hcap|].
  exact (proj2 (vcfg_after_reset (cfg := rv_config) raw_processor) Hcap).
Defined.

(** Nothing is pending after [reset]: no interrupt is taken. *)
Lemma take_interrupt_throws_witness :
  (take_interrupt (listening rv_config) = Returns tt (listening rv_config)
   \/ take_interrupt (listening rv_config)
      = Throws (throw_trap trap_interrupt) (listening rv_config))
  /\ (take_interrupt (listening rv_config)
      = Throws (throw_trap trap_interrupt) (listening rv_config)
      <-> Z.land (sr (listening rv_config)) SR_ET ≠ 0
          /\ exists n, 0 <= n < 32
             /\ Z.testbit (Z.land (cause (listening rv_config)) CAUSE_IP)
                  (n + CAUSE_IP_SHIFT) = true
             /\ Z.testbit (Z.land (sr (listening rv_config)) SR_IM)
                  (n + SR_IM_SHIFT) = true).
Proof.
  apply (take_interrupt_throws (cfg := rv_config) (listening rv_config));
    vm_compute; discriminate.
Defined.

(** The interrupt of another processor reaches a processor that listens. *)
Lemma deliver_ipi_taken_witness :
  run (deliver_ipi (listening rv_config)) = true
  /\ take_interrupt (deliver_ipi (listening rv_config))
     = Throws (throw_trap trap_interrupt) (deliver_ipi (listening rv_config)).
Proof.
  destruct (deliver_ipi_taken (cfg := rv_config) (listening rv_config))
    as (Hrun & _ & Htaken).
  - split; [vm_compute; discriminate|vm_compute; reflexivity].
  - split; [vm_compute; discriminate|vm_compute; reflexivity].
  - vm_compute. discriminate.
  - vm_compute. discriminate.
  - split; [exact Hrun|]. apply Htaken.
    + vm_compute. reflexivity.
    + vm_compute. reflexivity.
    + vm_compute. discriminate.
Defined.

Lemma delivered_trap_disables_traps_witness :
  exists p',
    take_trap 2 false (scenario_started rv_config) = Returns tt p'
    /\ Z.land (sr p') SR_ET = 0
    /\ take_interrupt p' = Returns tt p'
    /\ take_trap 3 false p' = Aborts (error_mode 0 3 0x100).
Proof.
  eexists. split; [vm_compute; reflexivity|].
  edestruct (delivered_trap_disables_traps (cfg := rv_config) 2 false
               (scenario_started rv_config)) as (Hoff & Hint & Hnested).
  - vm_compute. reflexivity.
  - vm_compute. reflexivity.
  - vm_compute. reflexivity.
  - split; [exact Hoff|]. split; [exact Hint|]. exact (Hnested 3 false).
Defined.

Lemma delivered_trap_frame_witness :
  exists p',
    take_trap 2 true (scenario_started rv_config) = Returns tt p'
    /\ supervisor (mmu p') = true
    /\ stdout p' = [trace_trap 0 2 0]
    /\ XPR p' = XPR (scenario_started rv_config).
Proof.
  eexists. split; [vm_compute; reflexivity|].
  edestruct (delivered_trap_frame (cfg := rv_config) 2 true
               (scenario_started rv_config))
    as (Hsup & _ & _ & Hout & Hx & _).
  - vm_compute. reflexivity.
  - vm_compute. discriminate.
  - vm_compute. reflexivity.
  - vm_compute. reflexivity.
  - split; [exact Hsup|]. split; [exact Hout|exact Hx].
Defined.

(** The interrupt delivered to a listening processor is still pending
    after the trap that takes it. *)
Lemma delivered_trap_keeps_pending_witness :
  exists p',
    take_trap trap_interrupt false (deliver_ipi (listening rv_config))
    = Returns tt p'
    /\ Z.land (cause p') CAUSE_IP = 0x2000.
Proof.
  eexists. split; [vm_compute; reflexivity|].
  erewrite (delivered_trap_keeps_pending (cfg := rv_config) trap_interrupt
              false (deliver_ipi (listening rv_config))).
  - vm_compute. reflexivity.
  - split; [vm_compute; discriminate|vm_compute; reflexivity].
  - vm_compute. reflexivity.
  - split; [vm_compute; discriminate|vm_compute; reflexivity].
  - vm_compute. reflexivity.
  - vm_compute. reflexivity.
Defined.

Lemma advance_counters_frame_witness :
  let q := advance_counters 10 (late_counter rv_config) in
  cycle q = 10 /\ count q = 9
  /\ cause q = cause (late_counter rv_config).
Proof.
  cbv zeta.
  destruct (advance_counters_frame (cfg := rv_config) 10
              (late_counter rv_config)) as (Hcycle & Hcount & _).
  - vm_compute. split; [discriminate|reflexivity].
  - vm_compute. split; [discriminate|reflexivity].
  - split; [exact Hcycle|]. split; [exact Hcount|]. vm_compute. reflexivity.
Defined.

(** Five instructions that fall through, traced or not: five counted, and
    the program counter, which each of them moves by 4, at 20. *)
Lemma full_batch_counts_n_witness :
  (exists p',
     execute_insns (arrays_of rv_config any_opcode) fallthrough zero_memory
       5 false (started rv_config) = Returns tt p'
     /\ pc p' = 20
     /\ step (arrays_of rv_config any_opcode) fallthrough zero_memory 6 5
          false (started rv_config)
        = step_returns (advance_counters 5 p'))
  /\ (exists p',
        execute_insns (arrays_of rv_config any_opcode) fallthrough
          zero_memory 5 true (started rv_config) = Returns tt p'
        /\ pc p' = 20
        /\ step (arrays_of rv_config any_opcode) fallthrough zero_memory 6 5
             true (started rv_config)
           = step_returns (advance_counters 5 p')).
Proof.
  split; eexists; (split; [vm_compute; reflexivity|]);
    (split; [vm_compute; reflexivity|]);
    apply (full_batch_counts_n (cfg := rv_config));
    first [ vm_compute; reflexivity
          | split; [vm_compute; discriminate|vm_compute; reflexivity]
          | vm_compute; lia ].
Defined.

(** The instruction at 0 retires and the one at 4 stops the batch. *)
Lemma group_of_four_discards_count_witness :
  exists p2,
    step (arrays_of rv_config any_opcode) (stop_at 4) zero_memory 2 4 false
      (started rv_config)
    = step_returns (advance_counters 1 p2)
    /\ step (arrays_of rv_config any_opcode) (stop_at 4) zero_memory 2 3 false
         (started rv_config)
       = step_returns (advance_counters 2 p2).
Proof.
  eexists.
  eapply (group_of_four_discards_count (cfg := rv_config)
            (arrays_of rv_config any_opcode) (stop_at 4) zero_memory 0
            (started rv_config)).
  - vm_compute. reflexivity.
  - vm_compute. reflexivity.
  - vm_compute. reflexivity.
  - vm_compute. reflexivity.
Defined.

Lemma halt_resets_witness :
  exists q,
    step (arrays_of rv_config any_opcode) (halt_at 0) zero_memory 1 5 false
      (started rv_config)
    = step_returns (reset q)
    /\ run (reset q) = false.
Proof.
  eexists.
  edestruct (halt_resets (cfg := rv_config) (arrays_of rv_config any_opcode)
               (halt_at 0) zero_memory 0 5 false (started rv_config))
    as (Hstep & Hoff & _).
  - vm_compute. reflexivity.
  - vm_compute. reflexivity.
  - vm_compute. reflexivity.
  - vm_compute. reflexivity.
  - split; [exact Hstep|exact Hoff].
Defined.

(** The batch of the scenario ends within twelve turns. *)
Lemma step_ends_witness :
  step (arrays_of rv_config no_opcodes) fallthrough zero_memory 12 5 false
    (scenario_started rv_config) ≠ step_fuel.
Proof.
  apply (step_ends (cfg := rv_config)).
  - vm_compute. reflexivity.
  - vm_compute. reflexivity.
  - split; [vm_compute; discriminate|vm_compute; reflexivity].
  - vm_compute. lia.
Defined.

Lemma init_lanes_witness :
  let r := init no_opcodes 7 (fun _ => raw_processor)
                (arrays_of rv_config no_opcodes) (reset raw_processor) in
  fst (fst r) = arrays_of rv_config no_opcodes
  /\ id (snd (fst r)) = 7
  /\ length (uts (snd (fst r))) = Z.to_nat MAX_UTS
  /\ length (snd r) = Z.to_nat MAX_UTS
  /\ forall (i : nat) lane,
       snd r !! i = Some lane ->
       uts (snd (fst r)) !! i = Some (Some i)
       /\ id lane = 7 /\ utidx lane = Z.of_nat i
       /\ run lane = false /\ pc lane = 0
       /\ Forall (fun l => l = None) (uts lane)
       /\ tlb_flushes (mmu lane) = (3 + tlb_flushes (mmu raw_processor))%nat
       /\ Z.land (sr lane) (if RISCV_ENABLE_FPU then 0 else SR_EF) = 0
       /\ Z.land (sr lane) (if RISCV_ENABLE_VEC then 0 else SR_EV) = 0
       /\ (implemented SR_EF -> Z.land (sr lane) SR_EF = SR_EF)
       /\ (implemented SR_EV -> Z.land (sr lane) SR_EV = SR_EV).
Proof.
  apply (init_lanes (cfg := rv_config) no_opcodes 7 (fun _ => raw_processor)
           (arrays_of rv_config no_opcodes) (reset raw_processor)
           processor_dispatch).
  vm_compute. reflexivity.
Defined.
